(** * sticker-dream: the printer subsystem of [src/print.ts] and its caller
    [src/server.ts], as a shallow embedding.

    Strings are sequences of code units below 256 ([Ascii.ascii]); the text
    exchanged with the print spooler is ASCII.  Awaited calls are run to
    completion in program order; what the operating system answers is given by
    an environment that sees the history of the run. *)

From Stdlib Require Import Ascii ZArith Lia.
From stdpp Require Import gmap strings list pretty.

#[local] Arguments String.append !_ _ / : simpl nomatch.

(** ** JavaScript string primitives used by the sources *)

Module JsString.

(** Upper-case letters among the code units below 256: A-Z, and the
    Latin-1 capitals U+00C0..U+00DE without the multiplication sign. *)
Definition is_upper (c : ascii) : bool :=
  let n := N_of_ascii c in
  ((65 <=? n) && (n <=? 90) ||
   (192 <=? n) && (n <=? 222) && negb (n =? 215))%N.

Definition lower_char (c : ascii) : ascii :=
  if is_upper c then ascii_of_N (N_of_ascii c + 32) else c.

(** [s.toLowerCase()] *)
Fixpoint toLowerCase (s : string) : string :=
  match s with
  | EmptyString => EmptyString
  | String c s' => String (lower_char c) (toLowerCase s')
  end.

(** [s.startsWith(p)] *)
Fixpoint startsWith (s p : string) {struct p} : bool :=
  match p, s with
  | EmptyString, _ => true
  | String a p', String b s' => Ascii.eqb a b && startsWith s' p'
  | String _ _, EmptyString => false
  end.

(** [s.includes(p)] *)
Fixpoint includes (s p : string) : bool :=
  startsWith s p ||
  match s with
  | EmptyString => false
  | String _ s' => includes s' p
  end.

(** [s.split(sep)] for a one-character separator *)
Fixpoint split (sep : ascii) (s : string) : list string :=
  match s with
  | EmptyString => [EmptyString]
  | String c s' =>
      if Ascii.eqb c sep then EmptyString :: split sep s'
      else match split sep s' with
           | l :: ls => String c l :: ls
           | [] => [String c EmptyString]
           end
  end.

(** White space and line terminators among the code units below 256:
    TAB, LF, VT, FF, CR, SPACE and NBSP. *)
Definition is_space (c : ascii) : bool :=
  let n := N_of_ascii c in
  ((9 <=? n) && (n <=? 13) || (n =? 32) || (n =? 160))%N.

Fixpoint trimStart (s : string) : string :=
  match s with
  | EmptyString => EmptyString
  | String c s' => if is_space c then trimStart s' else s
  end.

Fixpoint trimEnd (s : string) : string :=
  match s with
  | EmptyString => EmptyString
  | String c s' =>
      match trimEnd s' with
      | EmptyString => if is_space c then EmptyString else String c EmptyString
      | t => String c t
      end
  end.

(** [s.trim()] *)
Definition trim (s : string) : string := trimEnd (trimStart s).

(** [array.join(sep)] *)
Fixpoint join (sep : string) (l : list string) : string :=
  match l with
  | [] => EmptyString
  | [x] => x
  | x :: rest => x +:+ sep +:+ join sep rest
  end.

(** A string is falsy exactly when it is empty. *)
Definition truthy (s : string) : bool :=
  match s with EmptyString => false | _ => true end.

End JsString.

(** ** The regular expressions of [print.ts]

    A backtracking matcher for the fragment the sources use: literal text,
    the classes [.] and [\d] under the quantifiers plus, lazy plus and star,
    concatenation and capture groups.  Alternatives are tried in the order
    ECMAScript prescribes: a greedy quantifier tries the longest repetition
    first, a lazy one the shortest. *)

Module Regex.

Inductive cclass : Type :=
| CDot      (* .  : any character but a line terminator *)
| CDigit.   (* \d : 0-9 *)

Definition is_line_terminator (c : ascii) : bool :=
  let n := N_of_ascii c in ((n =? 10) || (n =? 13))%N.

Definition is_digit (c : ascii) : bool :=
  let n := N_of_ascii c in ((48 <=? n) && (n <=? 57))%N.

Definition accepts (k : cclass) (c : ascii) : bool :=
  match k with
  | CDot => negb (is_line_terminator c)
  | CDigit => is_digit c
  end.

Inductive regex : Type :=
| Lit (s : string)
| Plus (k : cclass)        (* k+  *)
| PlusLazy (k : cclass)    (* k+? *)
| Star (k : cclass)        (* k*  *)
| Cat (r1 r2 : regex)
| Group (r : regex).

(** The captures of a match, in the order the groups open (the sources
    nest no groups). *)
Definition captures : Type := list string.
Definition cont : Type := string -> option captures.

(** Literal text in front of the input. *)
Fixpoint lit (p s : string) (k : cont) : option captures :=
  match p with
  | EmptyString => k s
  | String a p' =>
      match s with
      | String b s' => if Ascii.eqb a b then lit p' s' k else None
      | EmptyString => None
      end
  end.

(** Zero or more characters of a class, longest first. *)
Fixpoint star (c : cclass) (s : string) (k : cont) : option captures :=
  match s with
  | String a s' =>
      if accepts c a then
        match star c s' k with
        | Some r => Some r
        | None => k s
        end
      else k s
  | EmptyString => k s
  end.

(** Zero or more characters of a class, shortest first. *)
Fixpoint star_lazy (c : cclass) (s : string) (k : cont) : option captures :=
  match k s with
  | Some r => Some r
  | None =>
      match s with
      | String a s' => if accepts c a then star_lazy c s' k else None
      | EmptyString => None
      end
  end.

(** One character of a class, then [rest]. *)
Definition one (c : cclass) (s : string)
    (rest : string -> option captures) : option captures :=
  match s with
  | String a s' => if accepts c a then rest s' else None
  | EmptyString => None
  end.

(** The text between the input [s] and its suffix [s']. *)
Definition consumed (s s' : string) : string :=
  String.substring 0 (String.length s - String.length s') s.

Fixpoint run (r : regex) (s : string) (k : cont) : option captures :=
  match r with
  | Lit p => lit p s k
  | Plus c => one c s (fun s' => star c s' k)
  | PlusLazy c => one c s (fun s' => star_lazy c s' k)
  | Star c => star c s k
  | Cat r1 r2 => run r1 s (fun s' => run r2 s' k)
  | Group r1 =>
      run r1 s (fun s' =>
        match k s' with
        | Some cs => Some (consumed s s' :: cs)
        | None => None
        end)
  end.

(** A match that starts at the first character of [s]. *)
Definition match_here (r : regex) (s : string) : option captures :=
  run r s (fun _ => Some []).

(** [s.match(r)] for a regex without the [g] flag: the captures of the
    leftmost match, [None] for JavaScript's [null]. *)
Fixpoint js_match (r : regex) (s : string) : option captures :=
  match match_here r s with
  | Some cs => Some cs
  | None =>
      match s with
      | String _ s' => js_match r s'
      | EmptyString => None
      end
  end.

(** [m[i]] of a match result, for [i >= 1]. *)
Definition group (i : nat) (cs : captures) : string :=
  nth (i - 1) cs EmptyString.

End Regex.

Import JsString Regex.

(** [/request id is .+-(\d+)/] *)
Definition re_request_id : regex :=
  Cat (Lit "request id is ") (Cat (Plus CDot) (Cat (Lit "-") (Group (Plus CDigit)))).

(** [/system default destination: (.+)/] *)
Definition re_default : regex :=
  Cat (Lit "system default destination: ") (Group (Plus CDot)).

(** The pattern of a printer line: [printer ], a lazy group [(.+?)], a
    space, and a greedy group of [.] under the star quantifier. *)
Definition re_printer : regex :=
  Cat (Lit "printer ")
      (Cat (Group (PlusLazy CDot)) (Cat (Lit " ") (Group (Star CDot)))).

(** [/device for (.+?): (.+)/] *)
Definition re_device : regex :=
  Cat (Lit "device for ")
      (Cat (Group (PlusLazy CDot)) (Cat (Lit ": ") (Group (Plus CDot)))).

(** The job id [printImage] extracts from the submit command's output:
    [jobMatch ? jobMatch[1] : stdout.trim()]. *)
Definition extractJobId (stdout : string) : string :=
  match js_match re_request_id stdout with
  | Some m => group 1 m
  | None => trim stdout
  end.

(** ** The world outside the program *)

(** A thrown JavaScript [Error]: its [code] property and its [message]. *)
Inductive ErrCode : Type :=
| NoCode
| NumCode (n : Z)
| StrCode (s : string).

Record Exn : Type := mkExn { code : ErrCode; message : string }.

(** [error.code === c] for a string [c] *)
Definition code_is (error : Exn) (c : string) : bool :=
  match code error with
  | StrCode s => String.eqb s c
  | _ => false
  end.

(** [new Error(msg)] *)
Definition Error (msg : string) : Exn := mkExn NoCode msg.

Definition Buffer : Type := list Byte.byte.

(** What the operating system does with a command line handed to [exec]. *)
Inductive ProcOutcome : Type :=
| SpawnFailed (e : Exn)                        (* the command could not be run *)
| Exited (status : Z) (stdout stderr : string).

(** What the run does to the outside, in order. *)
Inductive Event : Type :=
| EvExec (cmd : string)
| EvWriteFile (path : string) (ok : bool)
| EvUnlink (path : string) (ok : bool)
| EvOnResume (printerName : string)
| EvOnError (msg : string)
| EvSetTimeout (ms : Z).

(** The image service's answer: [generatedImages], each with its
    [image?.imageBytes] when present and non-empty (decoded). *)
Definition GenResponse : Type := list (option Buffer).

(** The environment: every answer may depend on what happened so far. *)
Record Env : Type := {
  spawn : list Event -> string -> ProcOutcome;
  write_error : list Event -> string -> option Exn;
  (* refusal to remove a file that exists (EPERM, EBUSY, ...) *)
  unlink_error : list Event -> string -> option Exn;
  (* refusal to read a file that exists (EACCES) *)
  access_error : list Event -> string -> option Exn;
  tmpdir : string;                          (* os.tmpdir() *)
  date_now : list Event -> Z;               (* Date.now() *)
  (* Math.random().toString(36).substring(7) *)
  random_id : list Event -> string;
  path_extname : string -> string;          (* path.extname *)
  generateImages : list Event -> string -> Exn + GenResponse
}.

Record World : Type := mkWorld {
  trace : list Event;
  files : gmap string Buffer
}.

(** ** Computations: state that survives a throw *)

Inductive Result (A : Type) : Type :=
| Ok (a : A)
| Throw (e : Exn).
Arguments Ok {A} a.
Arguments Throw {A} e.

Definition M (A : Type) : Type := World -> Result A * World.

Definition ret {A} (a : A) : M A := fun w => (Ok a, w).

Definition throw {A} (e : Exn) : M A := fun w => (Throw e, w).

Definition bind {A B} (c : M A) (k : A -> M B) : M B :=
  fun w =>
    match c w with
    | (Ok a, w') => k a w'
    | (Throw e, w') => (Throw e, w')
    end.

Notation "x <- c ;; k" := (bind c (fun x => k))
  (at level 100, c at next level, right associativity).
Notation "c ;;; k" := (bind c (fun _ => k))
  (at level 100, right associativity).

(** [try { body } catch (e) { handler }] *)
Definition try_catch {A} (body : M A) (handler : Exn -> M A) : M A :=
  fun w =>
    match body w with
    | (Ok a, w') => (Ok a, w')
    | (Throw e, w') => handler e w'
    end.

(** [try { body } finally { fin }]: [fin] always runs; when it throws, its
    exception replaces the outcome of [body]. *)
Definition try_finally {A} (body : M A) (fin : M unit) : M A :=
  fun w =>
    match body w with
    | (r, w') =>
        match fin w' with
        | (Ok _, w'') => (r, w'')
        | (Throw e, w'') => (Throw e, w'')
        end
    end.

Definition emit (ev : Event) : M unit :=
  fun w => (Ok tt, mkWorld (trace w ++ [ev]) (files w)).

(** ** Node primitives *)

(** [promisify(exec)(cmd)]: rejects when the command cannot be spawned and
    when it exits with a non-zero status; resolves to stdout and stderr
    otherwise. *)
Definition execAsync (env : Env) (cmd : string) : M (string * string) :=
  fun w =>
    let w' := mkWorld (trace w ++ [EvExec cmd]) (files w) in
    match spawn env (trace w) cmd with
    | SpawnFailed e => (Throw e, w')
    | Exited status stdout stderr =>
        if (status =? 0)%Z then (Ok (stdout, stderr), w')
        else (Throw (mkExn (NumCode status)
                       ("Command failed: " +:+ cmd +:+ "
" +:+ stderr)), w')
    end.

Definition ENOENT (path : string) : Exn :=
  mkExn (StrCode "ENOENT") ("ENOENT: no such file or directory, " +:+ path).

(** [fs.promises.writeFile(path, data)]; a write that fails is taken to
    leave the files as they were. *)
Definition fs_writeFile (env : Env) (path : string) (data : Buffer) : M unit :=
  fun w =>
    match write_error env (trace w) path with
    | Some e => (Throw e, mkWorld (trace w ++ [EvWriteFile path false]) (files w))
    | None => (Ok tt, mkWorld (trace w ++ [EvWriteFile path true])
                              (<[path := data]> (files w)))
    end.

(** [fs.promises.unlink(path)]: fails on a path that does not exist, and
    on one that does when the system refuses. *)
Definition fs_unlink (env : Env) (path : string) : M unit :=
  fun w =>
    let failed := mkWorld (trace w ++ [EvUnlink path false]) (files w) in
    match files w !! path with
    | None => (Throw (ENOENT path), failed)
    | Some _ =>
        match unlink_error env (trace w) path with
        | Some e => (Throw e, failed)
        | None => (Ok tt, mkWorld (trace w ++ [EvUnlink path true])
                                  (delete path (files w)))
        end
    end.

(** [fs.promises.access(path, fs.constants.R_OK)] *)
Definition fs_access (env : Env) (path : string) : M unit :=
  fun w =>
    match files w !! path with
    | None => (Throw (ENOENT path), w)
    | Some _ =>
        match access_error env (trace w) path with
        | Some e => (Throw e, w)
        | None => (Ok tt, w)
        end
    end.

(** [path.join(dir, file)] for a directory without a trailing separator and
    a file name without separators. *)
Definition path_join (dir file : string) : string := dir +:+ "/" +:+ file.

(** ** [print.ts] *)

Record Printer : Type := mkPrinter {
  name : string;
  uri : string;
  status : string;
  isDefault : bool;
  isUSB : bool;
  isBluetooth : bool;
  description : option string
}.

Record PrintOptions : Type := mkOptions {
  copies : option Z;
  media : option string;
  grayscale : bool;
  fitToPage : bool;
  cupOptions : list (string * string)   (* Object.entries order *)
}.

Definition no_options : PrintOptions := mkOptions None None false false [].

Definition newline : ascii := "010"%char.

(** The body of the loop over the lines of [lpstat -p -d]. *)
Definition parsePrinterLine (deviceLines : list string)
    (defaultPrinter line : string) : option Printer :=
  match js_match re_printer line with
  | None => None
  | Some m =>
      let printerName := group 1 m in
      let status := if truthy (group 2 m) then group 2 m else "unknown" in
      let deviceLine := find (fun d => includes d printerName) deviceLines in
      let uriMatch :=
        match deviceLine with
        | Some d => js_match re_device d
        | None => None
        end in
      let '(uri, isUSB, isBluetooth) :=
        match uriMatch with
        | Some um =>
            let uri := group 2 um in
            let lowerUri := toLowerCase uri in
            (uri, includes lowerUri "usb",
             includes lowerUri "bluetooth" || includes lowerUri "bth")
        | None => (EmptyString, false, false)
        end in
      Some (mkPrinter printerName uri status
              (String.eqb printerName defaultPrinter)
              isUSB isBluetooth (Some status))
  end.

Definition parsePrinters (printerList printerDevices : string) : list Printer :=
  let lines := split newline printerList in
  let deviceLines := split newline printerDevices in
  let defaultPrinter :=
    match js_match re_default printerList with
    | Some m => group 1 m
    | None => EmptyString
    end in
  omap (parsePrinterLine deviceLines defaultPrinter) lines.

Definition getAllPrinters (env : Env) : M (list Printer) :=
  try_catch
    (p <- execAsync env "lpstat -p -d" ;;
     d <- execAsync env "lpstat -v" ;;
     ret (parsePrinters (fst p) (fst d)))
    (fun error => throw (Error ("Failed to get printers: " +:+ message error))).

Definition getUSBPrinters (env : Env) : M (list Printer) :=
  allPrinters <- getAllPrinters env ;;
  ret (List.filter (fun p => isUSB p) allPrinters).

Definition dquote : string := String (ascii_of_N 34) EmptyString.

(** The text of [s] between double quotes, as the command lines embed it. *)
Definition quoted (s : string) : string := dquote +:+ s +:+ dquote.

(** The status text tells a printer that does not accept jobs. *)
Definition statusIsDisabled (stdout : string) : bool :=
  includes (toLowerCase stdout) "disabled" ||
  includes (toLowerCase stdout) "paused".

Definition statusCommand (printerName : string) : string :=
  "lpstat -p " +:+ quoted printerName.

Definition isPrinterEnabled (env : Env) (printerName : string) : M bool :=
  try_catch
    (out <- execAsync env (statusCommand printerName) ;;
     let isDisabled := statusIsDisabled (fst out) in
     ret (negb isDisabled))
    (fun error =>
       throw (Error ("Failed to check printer status: " +:+ message error))).

Definition enablePrinter (env : Env) (printerName : string) : M string :=
  try_catch
    (execAsync env ("cupsenable " +:+ quoted printerName) ;;;
     execAsync env ("cupsaccept " +:+ quoted printerName) ;;;
     ret ("Printer " +:+ quoted printerName +:+
          " has been enabled and is now accepting jobs"))
    (fun error =>
       throw (Error ("Failed to enable printer: " +:+ message error))).

Definition supportedFormats : list string :=
  [".png"; ".jpg"; ".jpeg"; ".gif"; ".pdf"; ".tiff"; ".tif"].

Definition validateImageFile (env : Env) (filePath : string) : M unit :=
  try_catch
    (fs_access env filePath ;;;
     let ext := toLowerCase (path_extname env filePath) in
     if existsb (String.eqb ext) supportedFormats then ret tt
     else throw (Error ("Unsupported file format: " +:+ ext +:+
                        ". Supported formats: " +:+ join ", " supportedFormats)))
    (fun error =>
       if code_is error "ENOENT"
       then throw (Error ("File not found: " +:+ filePath))
       else throw error).

Definition buildPrintCommand (printerName imagePath : string)
    (options : PrintOptions) : string :=
  let args := ["lp"; "-d"; quoted printerName] in
  let args := args ++
    match copies options with
    | Some n => if (1 <? n)%Z then ["-n"; pretty n] else []
    | None => []
    end in
  let args := args ++
    match media options with
    | Some m => if truthy m then ["-o"; "media=" +:+ m] else []
    | None => []
    end in
  let args := args ++
    (if grayscale options then ["-o"; "ColorModel=Gray"] else []) in
  let args := args ++
    (if fitToPage options then ["-o"; "fit-to-page"] else []) in
  let args := args ++
    flat_map (fun kv => ["-o"; fst kv +:+ "=" +:+ snd kv]) (cupOptions options) in
  let args := args ++ [quoted imagePath] in
  join " " args.

Inductive ImageSource : Type :=
| FromPath (imagePath : string)
| FromBuffer (data : Buffer).

(** The name [printImage] gives the temporary file of a buffer. *)
Definition tempFilePathOf (env : Env) (w : World) : string :=
  path_join (tmpdir env)
    ("print-temp-" +:+ pretty (date_now env (trace w)) +:+ "-" +:+
     random_id env (trace w) +:+ ".png").

(** The first statement of the [try] block: the path of the file to print. *)
Definition prepareImage (env : Env) (tempFilePath : string)
    (imagePathOrBuffer : ImageSource) : M string :=
  match imagePathOrBuffer with
  | FromBuffer data =>
      fs_writeFile env tempFilePath data ;;;
      ret tempFilePath
  | FromPath imagePath =>
      validateImageFile env imagePath ;;;
      ret imagePath
  end.

(** The rest of the [try] block: the late existence check and the submit. *)
Definition submitImage (env : Env) (printerName imagePath : string)
    (options : PrintOptions) : M string :=
  printers <- getAllPrinters env ;;
  match find (fun p => String.eqb (name p) printerName) printers with
  | None => throw (Error ("Printer not found: " +:+ printerName))
  | Some printer =>
      let command := buildPrintCommand printerName imagePath options in
      out <- execAsync env command ;;
      ret (extractJobId (fst out))
  end.

(** The [finally] block. *)
Definition cleanupTemp (env : Env) (tempFilePath : option string) : M unit :=
  match tempFilePath with
  | Some path => try_catch (fs_unlink env path) (fun _ => ret tt)
  | None => ret tt
  end.

(** [tempFilePath] is assigned before the file is written, so the [finally]
    block sees it whenever the source is a buffer; its value is fixed on
    entry, nothing before the assignment changes the world. *)
Definition printImage (env : Env) (printerName : string)
    (imagePathOrBuffer : ImageSource) (options : PrintOptions) : M string :=
  fun w =>
    let path := tempFilePathOf env w in
    let tempFilePath :=
      match imagePathOrBuffer with
      | FromBuffer _ => Some path
      | FromPath _ => None
      end in
    try_finally
      (try_catch
         (imagePath <- prepareImage env path imagePathOrBuffer ;;
          submitImage env printerName imagePath options)
         (fun error => throw (Error ("Failed to print: " +:+ message error))))
      (cleanupTemp env tempFilePath) w.

Definition printToUSB (env : Env) (imagePathOrBuffer : ImageSource)
    (options : PrintOptions) : M (string * string) :=
  usbPrinters <- getUSBPrinters env ;;
  match usbPrinters with
  | [] => throw (Error "No USB printers found")
  | first :: _ =>
      let printer :=
        match find (fun p => isDefault p) usbPrinters with
        | Some p => p
        | None => first
        end in
      jobId <- printImage env (name printer) imagePathOrBuffer options ;;
      ret (name printer, jobId)
  end.

(** *** The watcher

    The callbacks are the caller's; the model records that they are called
    and takes them to return. *)
Record WatchOptions : Type := mkWatch {
  interval : option Z;
  printerNames : option (list string);
  onResume : bool;       (* a callback was passed *)
  onError : bool
}.

Definition intervalOf (options : WatchOptions) : Z :=
  match interval options with Some ms => ms | None => 1000%Z end.

(** The closure state of one watcher: the flag, and the timeouts it has
    set that have not fired yet. *)
Record Watcher : Type := mkWatcher {
  isRunning : bool;
  timers : nat
}.

Definition printersToCheck (env : Env) (options : WatchOptions)
    : M (list Printer) :=
  match printerNames options with
  | Some (n :: ns) =>
      allPrinters <- getAllPrinters env ;;
      ret (List.filter (fun p => existsb (String.eqb (name p)) (n :: ns))
             allPrinters)
  | _ =>
      allPrinters <- getAllPrinters env ;;
      ret (List.filter (fun p => isUSB p || isBluetooth p) allPrinters)
  end.

(** The body of the loop over the candidates. *)
Definition checkPrinter (env : Env) (options : WatchOptions)
    (printer : Printer) : M unit :=
  isEnabled <- isPrinterEnabled env (name printer) ;;
  if negb isEnabled then
    enablePrinter env (name printer) ;;;
    (if onResume options then emit (EvOnResume (name printer)) else ret tt)
  else ret tt.

Fixpoint checkEach (env : Env) (options : WatchOptions)
    (printers : list Printer) : M unit :=
  match printers with
  | [] => ret tt
  | printer :: rest =>
      checkPrinter env options printer ;;;
      checkEach env options rest
  end.

(** The [try] block of a pass. *)
Definition passBody (env : Env) (options : WatchOptions) : M unit :=
  printers <- printersToCheck env options ;;
  checkEach env options printers.

(** The [try]/[catch] of a pass. *)
Definition pass (env : Env) (options : WatchOptions) : M unit :=
  try_catch (passBody env options)
    (fun error =>
       if onError options then emit (EvOnError (message error)) else ret tt).

(** [check]: one firing of the loop.  The pass awaits, so the stop handle
    can be invoked while it is in flight; [stopped_in_flight] tells whether
    it was.  The flag is read on entry and once more after the pass. *)
Definition check (env : Env) (options : WatchOptions)
    (stopped_in_flight : bool) (ws : Watcher) : M Watcher :=
  if negb (isRunning ws) then ret ws
  else
    pass env options ;;;
    let ws' := mkWatcher (isRunning ws && negb stopped_in_flight) (timers ws) in
    if isRunning ws' then
      emit (EvSetTimeout (intervalOf options)) ;;;
      ret (mkWatcher (isRunning ws') (S (timers ws')))
    else ret ws'.

(** [watchAndResumePrinters]: sets the flag and calls [check] at once. *)
Definition watchAndResumePrinters (env : Env) (options : WatchOptions)
    (stopped_in_flight : bool) : M Watcher :=
  check env options stopped_in_flight (mkWatcher true 0).

(** The stop handle. *)
Definition stop (ws : Watcher) : Watcher := mkWatcher false (timers ws).

(** What can happen to a started watcher: a timeout it set fires, or the
    stop handle is invoked. *)
Inductive Action : Type :=
| TimerFires (stopped_in_flight : bool)
| StopCalled.

Definition step (env : Env) (options : WatchOptions) (a : Action)
    (ws : Watcher) : M Watcher :=
  match a with
  | StopCalled => ret (stop ws)
  | TimerFires b =>
      match timers ws with
      | O => ret ws
      | S n => check env options b (mkWatcher (isRunning ws) n)
      end
  end.

Fixpoint steps (env : Env) (options : WatchOptions) (actions : list Action)
    (ws : Watcher) : M Watcher :=
  match actions with
  | [] => ret ws
  | a :: rest =>
      ws' <- step env options a ws ;;
      steps env options rest ws'
  end.

(** ** [server.ts]: the generate-and-print handler *)

(** The [prompt] field of the request body. *)
Inductive JsVal : Type :=
| JUndefined
| JNull
| JBool (b : bool)
| JNumber (n : Z)
| JString (s : string).

Definition js_truthy (v : JsVal) : bool :=
  match v with
  | JUndefined | JNull => false
  | JBool b => b
  | JNumber n => negb (n =? 0)%Z
  | JString s => truthy s
  end.

(** Template-literal conversion of the prompt. *)
Definition js_to_string (v : JsVal) : string :=
  match v with
  | JUndefined => "undefined"
  | JNull => "null"
  | JBool true => "true"
  | JBool false => "false"
  | JNumber n => pretty n
  | JString s => s
  end.

Inductive Response : Type :=
| JsonError (status : Z) (error : string)
| ImageResponse (status : Z) (contentType : string) (body : Buffer).

(** [generateImage]: [null] is [None]. *)
Definition generateImage (env : Env) (prompt : string) : M (option Buffer) :=
  fun w =>
    match generateImages env (trace w) prompt with
    | inl e => (Throw e, w)
    | inr [] => (Ok None, w)
    | inr (first :: _) => (Ok first, w)
    end.

(** The inner [try] block of the handler: choose a printer and submit. *)
Definition printGenerated (env : Env) (PRINTER_NAME : string)
    (buffer : Buffer) : M unit :=
  let options := mkOptions (Some 1%Z) None false true [] in
  printers <- getAllPrinters env ;;
  match find (fun p => String.eqb (name p) PRINTER_NAME) printers with
  | Some targetPrinter =>
      printImage env PRINTER_NAME (FromBuffer buffer) options ;;;
      ret tt
  | None =>
      printToUSB env (FromBuffer buffer) options ;;;
      ret tt
  end.

(** [app.post('/api/generate', ...)], from the parsed body on. *)
Definition handleGenerate (env : Env) (PRINTER_NAME : string)
    (prompt : JsVal) : M Response :=
  if negb (js_truthy prompt) then ret (JsonError 400 "Prompt is required")
  else
    try_catch
      (buffer <- generateImage env (js_to_string prompt) ;;
       match buffer with
       | None => ret (JsonError 500 "Failed to generate image")
       | Some buffer =>
           try_catch (printGenerated env PRINTER_NAME buffer)
                     (fun printError => ret tt) ;;;
           ret (ImageResponse 200 "image/png" buffer)
       end)
      (fun error => ret (JsonError 500 (message error))).

(** ** The rest of [print.ts] and [server.ts] *)

Definition getBluetoothPrinters (env : Env) : M (list Printer) :=
  allPrinters <- getAllPrinters env ;;
  ret (List.filter (fun p => isBluetooth p) allPrinters).

(** The object [checkAndResumePrinter] returns: [wasEnabled] and its
    [message]. *)
Record ResumeReport : Type := mkReport {
  wasEnabled : bool;
  report : string
}.

Definition checkAndResumePrinter (env : Env) (printerName : string)
    (autoEnable : bool) : M ResumeReport :=
  isEnabled <- isPrinterEnabled env printerName ;;
  if isEnabled then
    ret (mkReport true ("Printer " +:+ quoted printerName +:+ " is ready"))
  else if autoEnable then
    msg <- enablePrinter env printerName ;;
    ret (mkReport false (msg +:+ " (was paused/disabled)"))
  else
    ret (mkReport false
           ("Printer " +:+ quoted printerName +:+ " is paused/disabled")).

Definition getPrinterInfo (env : Env) (printerName : string) : M string :=
  try_catch
    (out <- execAsync env ("lpoptions -p " +:+ quoted printerName +:+ " -l") ;;
     ret (fst out))
    (fun error =>
       throw (Error ("Failed to get printer info: " +:+ message error))).

(** [/PageSize\/Media Size: (.+)/] *)
Definition re_media : regex :=
  Cat (Lit "PageSize/Media Size: ") (Group (Plus CDot)).

Definition space : ascii := " "%char.

Definition getAvailableMediaSizes (env : Env) (printerName : string)
    : M (list string) :=
  try_catch
    (info <- getPrinterInfo env printerName ;;
     match js_match re_media info with
     | Some mediaMatch =>
         let sizes := split space (group 1 mediaMatch) in
         ret (List.filter (fun s => truthy s && negb (String.eqb s "*")) sizes)
     | None => ret []
     end)
    (fun error =>
       throw (Error ("Failed to get media sizes: " +:+ message error))).

(** [process.env["PRINTER_NAME"] || "Canon XK130 series 3"] *)
Definition defaultPrinterName : string := "Canon XK130 series 3".

Definition configuredPrinter (variable : option string) : string :=
  match variable with
  | Some v => if truthy v then v else defaultPrinterName
  | None => defaultPrinterName
  end.

(** The options [server.ts] starts the watcher with. *)
Definition serverWatchOptions (PRINTER_NAME : string) : WatchOptions :=
  mkWatch (Some 30000%Z)
          (if truthy PRINTER_NAME then Some [PRINTER_NAME] else None)
          true true.

(** The [audio] field of the parsed form: a file, or anything else. *)
Inductive Upload : Type :=
| NoAudio
| AudioFile (data : Buffer).

Inductive TranscribeReply : Type :=
| TranscribeFailed (status : Z) (error : string)
| Transcribed (text : string).

(** The name [/api/transcribe] gives its temporary file. *)
Definition audioPathOf (env : Env) (w : World) : string :=
  path_join (tmpdir env)
    ("audio-" +:+ pretty (date_now env (trace w)) +:+ ".webm").

(** [app.post('/api/transcribe', ...)].  [parsed] is what parsing the form
    gives; [whisper] is the transcription service, which reads the
    temporary file. *)
Definition handleTranscribe (env : Env)
    (whisper : list Event -> option Buffer -> Exn + string)
    (parsed : Exn + Upload) : M TranscribeReply :=
  try_catch
    (fun w =>
       match parsed with
       | inl e => throw e w
       | inr NoAudio => ret (TranscribeFailed 400 "Audio file is required") w
       | inr (AudioFile buffer) =>
           let tempFilePath := audioPathOf env w in
           (fs_writeFile env tempFilePath buffer ;;;
            try_finally
              (fun w' =>
                 match whisper (trace w') (files w' !! tempFilePath) with
                 | inl e => (Throw e, w')
                 | inr text => (Ok (Transcribed text), w')
                 end)
              (try_catch (fs_unlink env tempFilePath) (fun _ => ret tt))) w
       end)
    (fun error => ret (TranscribeFailed 500 (message error))).

(** ** The vocabulary of the specification *)

(** [text] contains [word], letter case aside: some stretch of [text] is
    [word] up to the case of its letters. *)
Definition contains_ignoring_case (text word : string) : Prop :=
  exists pre mid post,
    text = pre +:+ mid +:+ post /\ toLowerCase mid = toLowerCase word.

(** Every character of [s] satisfies [f]. *)
Fixpoint all_chars (f : ascii -> bool) (s : string) : bool :=
  match s with
  | EmptyString => true
  | String c s' => f c && all_chars f s'
  end.

(** The strings a regex denotes, with the text its groups capture; the order
    in which a matcher would try the alternatives plays no part. *)
Inductive matches : regex -> string -> captures -> Prop :=
| MLit p : matches (Lit p) p []
| MPlus c s :
    s <> EmptyString -> all_chars (accepts c) s = true -> matches (Plus c) s []
| MPlusLazy c s :
    s <> EmptyString -> all_chars (accepts c) s = true ->
    matches (PlusLazy c) s []
| MStar c s : all_chars (accepts c) s = true -> matches (Star c) s []
| MCat r1 r2 s1 s2 c1 c2 :
    matches r1 s1 c1 -> matches r2 s2 c2 ->
    matches (Cat r1 r2) (s1 +:+ s2) (c1 ++ c2)
| MGroup r s c : matches r s c -> matches (Group r) s (c ++ [s]).



(** The events a computation adds to the trace. *)
Definition events_of {A} (c : M A) (w : World) : list Event :=
  drop (length (trace w)) (trace (snd (c w))).

(** The command lines among some events. *)
Definition commands (evs : list Event) : list string :=
  omap (fun ev => match ev with EvExec cmd => Some cmd | _ => None end) evs.




Definition is_exec (ev : Event) : bool :=
  match ev with EvExec _ => true | _ => false end.

(** What [onError] adds to the trace for the outcome of a pass's [try]
    block. *)
Definition reported (options : WatchOptions) (r : Result unit) : list Event :=
  match r with
  | Throw e => if onError options then [EvOnError (message e)] else []
  | Ok _ => []
  end.

(** What the end of [check] adds: the next timeout, unless stopped. *)
Definition rescheduled (options : WatchOptions) (stopped_in_flight : bool)
    : list Event :=
  if stopped_in_flight then [] else [EvSetTimeout (intervalOf options)].

(** A computation only adds to the trace. *)
Definition grows {A} (c : M A) : Prop :=
  forall w, exists evs, trace (snd (c w)) = trace w ++ evs.

(** The first thing a computation does is [ev]. *)
Definition first_event {A} (c : M A) (ev : Event) : Prop :=
  forall w, exists rest, trace (snd (c w)) = trace w ++ ev :: rest.

(** From [w] to [w'] commands were run and nothing else happened. *)
Definition only_runs (w w' : World) : Prop :=
  exists evs,
    w' = mkWorld (trace w ++ evs) (files w) /\ forallb is_exec evs = true.

(** [s] has a space somewhere after its first character. *)
Definition inner_space (s : string) : bool :=
  match s with
  | EmptyString => false
  | String _ rest => negb (all_chars (fun c => negb (Ascii.eqb c space)) rest)
  end.

(** [s] is empty or begins with a line terminator. *)
Definition at_line_end (s : string) : Prop :=
  match s with
  | EmptyString => True
  | String c _ => is_line_terminator c = true
  end.

(** [options] without a copy count, and without a media size. *)
Definition without_copies (options : PrintOptions) : PrintOptions :=
  mkOptions None (media options) (grayscale options) (fitToPage options)
            (cupOptions options).

Definition without_media (options : PrintOptions) : PrintOptions :=
  mkOptions (copies options) None (grayscale options) (fitToPage options)
            (cupOptions options).

(** The command [cmd], run after [history], exits with status 0. *)
Definition succeeds (env : Env) (history : list Event) (cmd : string) : bool :=
  match spawn env history cmd with
  | Exited status _ _ => (status =? 0)%Z
  | SpawnFailed _ => false
  end.

(** What a command that exits with status 0 prints. *)
Definition output_of (env : Env) (history : list Event) (cmd : string) : string :=
  match spawn env history cmd with
  | Exited _ stdout _ => stdout
  | SpawnFailed _ => EmptyString
  end.

(** The two command lines of [enablePrinter]. *)
Definition enableCommand (printerName : string) : string :=
  "cupsenable " +:+ quoted printerName.

Definition acceptCommand (printerName : string) : string :=
  "cupsaccept " +:+ quoted printerName.

(** An exception is an [Error] whose message begins with [pre]. *)
Definition error_with_prefix (pre : string) (e : Exn) : Prop :=
  exists rest, e = Error (pre +:+ rest).

(** The world a status check leaves. *)
Definition after_status (printerName : string) (w : World) : World :=
  mkWorld (trace w ++ [EvExec (statusCommand printerName)]) (files w).

(** The file [printImage] submits: the caller's, or the temporary one. *)
Definition submittedPath (env : Env) (w : World) (src : ImageSource) : string :=
  match src with
  | FromPath imagePath => imagePath
  | FromBuffer _ => tempFilePathOf env w
  end.

(** The [try]/[catch] of [printImage]. *)
Definition printAttempt (env : Env) (printerName : string)
    (src : ImageSource) (options : PrintOptions) (w : World)
    : Result string * World :=
  try_catch
    (imagePath <- prepareImage env (tempFilePathOf env w) src ;;
     submitImage env printerName imagePath options)
    (fun error => throw (Error ("Failed to print: " +:+ message error))) w.

(** The options of a command line, between the printer and the file. *)
Definition optionArgs (options : PrintOptions) : list string :=
  match copies options with
  | Some n => if (1 <? n)%Z then ["-n"; pretty n] else []
  | None => []
  end ++
  match media options with
  | Some m => if truthy m then ["-o"; "media=" +:+ m] else []
  | None => []
  end ++
  (if grayscale options then ["-o"; "ColorModel=Gray"] else []) ++
  (if fitToPage options then ["-o"; "fit-to-page"] else []) ++
  flat_map (fun kv => ["-o"; fst kv +:+ "=" +:+ snd kv]) (cupOptions options).

(** ** Scenarios: a spooler with one USB printer *)

Module Scenario.

Definition lpstat_p_d : string :=
  "printer Canon_XK130 is idle.  enabled since Mon Nov  2 16:14:00 2026
system default destination: Canon_XK130
".

Definition lpstat_v : string :=
  "device for Canon_XK130: usb://Canon/XK130%20series?serial=12AB34
".

Definition enabled_text : string :=
  "printer Canon_XK130 is idle.  enabled since Mon Nov  2 16:14:00 2026
".

Definition paused_text : string :=
  "printer Canon_XK130 disabled since Mon Nov  2 16:14:00 2026 -
	Paused
".

Definition resumed (history : list Event) : bool :=
  existsb (fun ev =>
             match ev with
             | EvExec cmd => String.eqb cmd ("cupsenable " +:+ quoted "Canon_XK130")
             | _ => false
             end) history.

(** The spooler: [paused] tells whether the printer starts out paused; an
    unknown destination makes [lpstat -p] exit with status 1, as CUPS
    does. *)
Definition cups (paused : bool) (history : list Event) (cmd : string)
    : ProcOutcome :=
  if String.eqb cmd "lpstat -p -d" then Exited 0 lpstat_p_d EmptyString
  else if String.eqb cmd "lpstat -v" then Exited 0 lpstat_v EmptyString
  else if String.eqb cmd (statusCommand "Canon_XK130") then
    Exited 0 (if paused && negb (resumed history) then paused_text
              else enabled_text) EmptyString
  else if startsWith cmd "lpstat -p " then
    Exited 1 EmptyString "lpstat: Invalid destination name in list.
"
  else if startsWith cmd "cupsenable " then Exited 0 EmptyString EmptyString
  else if startsWith cmd "cupsaccept " then Exited 0 EmptyString EmptyString
  else if startsWith cmd "lp -d " then
    Exited 0 "request id is Canon_XK130-42 (1 file(s))
" EmptyString
  else SpawnFailed (mkExn (StrCode "ENOENT") "spawn ENOENT").

Definition png : Buffer := [Byte.x89; Byte.x50; Byte.x4e; Byte.x47].

Definition EPERM : Exn :=
  mkExn (StrCode "EPERM") "EPERM: operation not permitted, unlink".

Definition env_of (spawn : list Event -> string -> ProcOutcome)
    (unlink_refused : bool) : Env :=
  {| spawn := spawn;
     write_error := fun _ _ => None;
     unlink_error := fun _ _ => if unlink_refused then Some EPERM else None;
     access_error := fun _ _ => None;
     tmpdir := "/tmp";
     date_now := fun _ => 1793636040000%Z;
     random_id := fun _ => "k3x9qf";
     path_extname := fun _ => ".png";
     generateImages := fun _ _ => inr [Some png] |}.

(** The spooler is down: no command can be run. *)
Definition down (history : list Event) (cmd : string) : ProcOutcome :=
  SpawnFailed (mkExn (StrCode "ENOENT") "spawn /bin/sh ENOENT").

Definition start : World := mkWorld [] ∅.

(** The record discovery builds for the printer of [cups]. *)
Definition canon : Printer :=
  mkPrinter "Canon_XK130" "usb://Canon/XK130%20series?serial=12AB34"
    "is idle.  enabled since Mon Nov  2 16:14:00 2026" true true false
    (Some "is idle.  enabled since Mon Nov  2 16:14:00 2026").

Definition discovered : World :=
  mkWorld [EvExec "lpstat -p -d"; EvExec "lpstat -v"] ∅.

(** A spooler with two USB printers that fails the status query of the
    first one. *)
Definition two_printers : string :=
  "printer Front is idle.  enabled since Mon Nov  2 16:14:00 2026
printer Back is idle.  enabled since Mon Nov  2 16:14:00 2026
".

Definition two_devices : string :=
  "device for Front: usb://Canon/XK130?serial=F1
device for Back: usb://Canon/XK130?serial=B2
".

Definition flaky (history : list Event) (cmd : string) : ProcOutcome :=
  if String.eqb cmd "lpstat -p -d" then Exited 0 two_printers EmptyString
  else if String.eqb cmd "lpstat -v" then Exited 0 two_devices EmptyString
  else if String.eqb cmd (statusCommand "Front") then
    Exited 1 EmptyString "lpstat: Unable to connect to server
"
  else Exited 0 EmptyString EmptyString.

Definition front : Printer :=
  mkPrinter "Front" "usb://Canon/XK130?serial=F1"
    "is idle.  enabled since Mon Nov  2 16:14:00 2026" false true false
    (Some "is idle.  enabled since Mon Nov  2 16:14:00 2026").

Definition back : Printer :=
  mkPrinter "Back" "usb://Canon/XK130?serial=B2"
    "is idle.  enabled since Mon Nov  2 16:14:00 2026" false true false
    (Some "is idle.  enabled since Mon Nov  2 16:14:00 2026").

Definition watch_all : WatchOptions := mkWatch None None true true.

Definition temp_path : string := "/tmp/print-temp-1793636040000-k3x9qf.png".

(** What a pass throws when the spooler is down. *)
Definition spooler_down : Exn :=
  Error "Failed to get printers: spawn /bin/sh ENOENT".

(** What the status check of the first printer of [flaky] throws, and the
    world it leaves. *)
Definition front_failed : Exn :=
  Error ("Failed to check printer status: Command failed: " +:+
         statusCommand "Front" +:+ String newline
         "lpstat: Unable to connect to server
").

Definition after_front : World :=
  mkWorld [EvExec "lpstat -p -d"; EvExec "lpstat -v";
           EvExec (statusCommand "Front")] ∅.


Definition watch_one : WatchOptions :=
  mkWatch (Some 30000%Z) (Some ["Canon_XK130"]) true true.

(** A spooler whose only printer is on the network. *)
Definition office_list : string :=
  "printer Office is idle.  enabled since Mon Nov  2 16:14:00 2026
".

Definition office_devices : string :=
  "device for Office: ipp://office.local/ipp/print
".

Definition network_only (history : list Event) (cmd : string) : ProcOutcome :=
  if String.eqb cmd "lpstat -p -d" then Exited 0 office_list EmptyString
  else if String.eqb cmd "lpstat -v" then Exited 0 office_devices EmptyString
  else Exited 0 EmptyString EmptyString.

Definition office : Printer :=
  mkPrinter "Office" "ipp://office.local/ipp/print"
    "is idle.  enabled since Mon Nov  2 16:14:00 2026" false false false
    (Some "is idle.  enabled since Mon Nov  2 16:14:00 2026").

(** [cups] with an answer to the options query of its printer. *)
Definition media_line : string :=
  "PageSize/Media Size: *4x6 A4 Letter
ColorModel/Color Mode: *Gray RGB
".

Definition cups_with_options (history : list Event) (cmd : string)
    : ProcOutcome :=
  if String.eqb cmd ("lpoptions -p " +:+ quoted "Canon_XK130" +:+ " -l")
  then Exited 0 media_line EmptyString
  else cups false history cmd.

(** The options the handler prints with. *)
Definition handler_options : PrintOptions :=
  mkOptions (Some 1%Z) None false true [].

Definition ghost_not_found : Exn :=
  Error "Failed to print: Printer not found: Ghost".

Definition missing_file : Exn := Error "File not found: /missing.png".

End Scenario.

(** ** String facts *)

Module StringFacts.

Lemma app_nil_r (s : string) : s +:+ EmptyString = s.
Proof.
  induction s as [|c s IH]; [reflexivity |].
  cbn [String.append]. now f_equal.
Qed.

Lemma app_assoc (a b c : string) : (a +:+ b) +:+ c = a +:+ b +:+ c.
Proof.
  induction a as [|x a IH]; [reflexivity |].
  cbn [String.append]. now f_equal.
Qed.

Lemma length_app (a b : string) :
  String.length (a +:+ b) = String.length a + String.length b.
Proof.
  induction a as [|x a IH]; [reflexivity |].
  cbn [String.append String.length]. now rewrite IH.
Qed.

Lemma substring_app (a b : string) :
  String.substring 0 (String.length a) (a +:+ b) = a.
Proof.
  induction a as [|x a IH].
  - destruct b; reflexivity.
  - cbn [String.append String.length String.substring]. now rewrite IH.
Qed.

Lemma consumed_app (a b : string) : consumed (a +:+ b) b = a.
Proof.
  unfold consumed. rewrite length_app.
  replace (String.length a + String.length b - String.length b)
    with (String.length a) by lia.
  apply substring_app.
Qed.

Lemma toLowerCase_app (a b : string) :
  toLowerCase (a +:+ b) = toLowerCase a +:+ toLowerCase b.
Proof.
  induction a as [|x a IH]; [reflexivity |].
  cbn [String.append toLowerCase]. now rewrite IH.
Qed.

(** A split of the lower-cased text is the lower-casing of a split. *)
Lemma toLowerCase_split (s a b : string) :
  toLowerCase s = a +:+ b ->
  exists a' b', s = a' +:+ b' /\ toLowerCase a' = a /\ toLowerCase b' = b.
Proof.
  revert s. induction a as [|x a IH]; intros s H.
  - exists EmptyString, s. auto.
  - destruct s as [|c s]; simpl in H; [discriminate |].
    injection H as Hc Hs.
    destruct (IH _ Hs) as (a' & b' & -> & Ha & Hb).
    exists (String c a'), b'. simpl. now rewrite Hc, Ha.
Qed.

Lemma startsWith_spec (s p : string) :
  startsWith s p = true <-> exists post, s = p +:+ post.
Proof.
  revert s. induction p as [|a p IH]; intros s; simpl.
  - split; [intros _; now exists s | reflexivity].
  - destruct s as [|b s].
    + split; [discriminate | intros [post H]; discriminate].
    + rewrite andb_true_iff, IH, Ascii.eqb_eq. split.
      * intros [-> [post ->]]. now exists post.
      * intros [post H]. injection H as -> ->. eauto.
Qed.

Lemma includes_spec (s p : string) :
  includes s p = true <-> exists pre post, s = pre +:+ p +:+ post.
Proof.
  induction s as [|c s IH].
  - simpl. rewrite orb_false_r, startsWith_spec. split.
    + intros [post H]. now exists EmptyString, post.
    + intros (pre & post & H). destruct pre; [now exists post | discriminate].
  - cbn [includes]. rewrite orb_true_iff, startsWith_spec, IH. split.
    + intros [[post H] | (pre & post & H)].
      * now exists EmptyString, post.
      * exists (String c pre), post. simpl. now rewrite H.
    + intros (pre & post & H). destruct pre as [|x pre].
      * left. now exists post.
      * right. injection H as _ H. eauto.
Qed.

(** The test the sources make, against the specification's wording. *)
Lemma includes_lower_spec (text word : string) :
  toLowerCase word = word ->
  includes (toLowerCase text) word = true <->
  contains_ignoring_case text word.
Proof.
  intros Hw. rewrite includes_spec. split.
  - intros (pre & post & H).
    apply toLowerCase_split in H as (pre' & rest & -> & _ & H).
    apply toLowerCase_split in H as (mid & post' & -> & Hm & _).
    exists pre', mid, post'. split; [reflexivity | congruence].
  - intros (pre & mid & post & -> & Hm).
    exists (toLowerCase pre), (toLowerCase post).
    rewrite !toLowerCase_app. congruence.
Qed.

Lemma includes_lower_false (text word : string) :
  toLowerCase word = word ->
  includes (toLowerCase text) word = false <->
  ~ contains_ignoring_case text word.
Proof.
  intros Hw. rewrite <- (includes_lower_spec _ _ Hw).
  destruct (includes _ _); split; congruence.
Qed.

End StringFacts.

(** ** The matcher against the strings a regex denotes *)

Module RegexFacts.
Import StringFacts.

Lemma lit_spec (p s : string) (k : cont) (cs : captures) :
  lit p s k = Some cs <-> exists s2, s = p +:+ s2 /\ k s2 = Some cs.
Proof.
  revert s. induction p as [|a p IH]; intros s; simpl.
  - split; [eauto | now intros (s2 & -> & H)].
  - destruct s as [|b s].
    + split; [discriminate | now intros (s2 & H & _)].
    + destruct (Ascii.eqb_spec a b) as [->|Hne].
      * rewrite IH. split; intros (s2 & H & Hk); exists s2; simpl in *;
          split; auto; congruence.
      * split; [discriminate | intros (s2 & H & _); congruence].
Qed.

Lemma one_spec (c : cclass) (s : string) (rest : cont) (cs : captures) :
  one c s rest = Some cs <->
  exists a s', s = String a s' /\ accepts c a = true /\ rest s' = Some cs.
Proof.
  unfold one. destruct s as [|a s'].
  - split; [discriminate | now intros (? & ? & ? & _)].
  - destruct (accepts c a) eqn:Ha.
    + split; [eauto |]. intros (? & ? & [= <- <-] & _ & H). exact H.
    + split; [discriminate |]. intros (? & ? & [= <- <-] & H & _).
      congruence.
Qed.

Lemma star_sound (c : cclass) (s : string) (k : cont) (cs : captures) :
  star c s k = Some cs ->
  exists s1 s2,
    s = s1 +:+ s2 /\ all_chars (accepts c) s1 = true /\ k s2 = Some cs.
Proof.
  induction s as [|a s IH]; simpl; intros H.
  - exists EmptyString, EmptyString. auto.
  - destruct (accepts c a) eqn:Ha.
    + destruct (star c s k) as [r|] eqn:Hs.
      * injection H as ->.
        destruct (IH eq_refl) as (s1 & s2 & -> & Hall & Hk).
        exists (String a s1), s2. simpl. now rewrite Ha, Hall.
      * exists EmptyString, (String a s). auto.
    + exists EmptyString, (String a s). auto.
Qed.

Lemma star_continue (c : cclass) (s : string) (k : cont) :
  is_Some (k s) -> is_Some (star c s k).
Proof.
  intros Hk. destruct s as [|a s]; simpl; [exact Hk |].
  destruct (accepts c a); [|exact Hk].
  destruct (star c s k); [eauto | exact Hk].
Qed.


Lemma star_lazy_sound (c : cclass) (s : string) (k : cont) (cs : captures) :
  star_lazy c s k = Some cs ->
  exists s1 s2,
    s = s1 +:+ s2 /\ all_chars (accepts c) s1 = true /\ k s2 = Some cs.
Proof.
  induction s as [|a s IH]; simpl; intros H.
  - destruct (k EmptyString) eqn:Hk; [|discriminate].
    exists EmptyString, EmptyString.
    split; [reflexivity|]. split; [reflexivity | congruence].
  - destruct (k (String a s)) eqn:Hk.
    + exists EmptyString, (String a s).
      split; [reflexivity|]. split; [reflexivity | congruence].
    + destruct (accepts c a) eqn:Ha; [|discriminate].
      destruct (IH H) as (s1 & s2 & -> & Hall & Hk2).
      exists (String a s1), s2. simpl. now rewrite Ha, Hall.
Qed.


(** What the matcher finds is a match. *)
Theorem run_sound (r : regex) :
  forall (s : string) (k : cont) (cs : captures),
    run r s k = Some cs ->
    exists s1 s2 c1 c2,
      s = s1 +:+ s2 /\ matches r s1 c1 /\ k s2 = Some c2 /\ cs = c1 ++ c2.
Proof.
  induction r as [p|c|c|c|r1 IH1 r2 IH2|r1 IH1]; intros s k cs H; simpl in H.
  - apply lit_spec in H as (s2 & -> & Hk).
    exists p, s2, [], cs. repeat split; auto. constructor.
  - apply one_spec in H as (a & s' & -> & Ha & H).
    apply star_sound in H as (s1 & s2 & -> & Hall & Hk).
    exists (String a s1), s2, [], cs. repeat split; auto.
    constructor; [discriminate | simpl; now rewrite Ha].
  - apply one_spec in H as (a & s' & -> & Ha & H).
    apply star_lazy_sound in H as (s1 & s2 & -> & Hall & Hk).
    exists (String a s1), s2, [], cs. repeat split; auto.
    constructor; [discriminate | simpl; now rewrite Ha].
  - apply star_sound in H as (s1 & s2 & -> & Hall & Hk).
    exists s1, s2, [], cs. repeat split; auto. now constructor.
  - apply IH1 in H as (s1 & s' & c1 & c' & -> & M1 & H & ->).
    apply IH2 in H as (s2 & s3 & c2 & c3 & -> & M2 & Hk & ->).
    exists (s1 +:+ s2), s3, (c1 ++ c2), c3.
    rewrite app_assoc, <- (assoc_L (++)). repeat split; auto.
    now constructor.
  - apply IH1 in H as (s1 & s2 & c1 & c' & -> & M1 & H & ->).
    destruct (k s2) as [c2|] eqn:Hk; [|discriminate].
    injection H as <-. rewrite consumed_app.
    exists s1, s2, (c1 ++ [s1]), c2. rewrite <- (assoc_L (++)).
    repeat split; auto. now constructor.
Qed.


Theorem js_match_sound (r : regex) (s : string) (cs : captures) :
  js_match r s = Some cs ->
  exists pre s1 post, s = pre +:+ s1 +:+ post /\ matches r s1 cs.
Proof.
  induction s as [|a s IH]; simpl; intros H.
  - destruct (match_here r EmptyString) as [c|] eqn:Hh; [|discriminate].
    injection H as ->.
    apply run_sound in Hh as (s1 & s2 & c1 & c2 & Hs & Hm & [= <-] & ->).
    exists EmptyString, s1, s2. rewrite (right_id_L [] (++)). auto.
  - destruct (match_here r (String a s)) as [c|] eqn:Hh.
    + injection H as ->.
      apply run_sound in Hh as (s1 & s2 & c1 & c2 & Hs & Hm & [= <-] & ->).
      exists EmptyString, s1, s2. rewrite (right_id_L [] (++)). auto.
    + destruct (IH H) as (pre & s1 & post & -> & Hm).
      exists (String a pre), s1, post. auto.
Qed.


(** With a continuation that takes whatever is left, the greedy star
    takes every character of the class there is. *)
Lemma star_greedy (c : cclass) (s : string) (k : cont) :
  (forall s', is_Some (k s')) ->
  exists s1 s2,
    s = s1 +:+ s2 /\ all_chars (accepts c) s1 = true /\
    match s2 with EmptyString => True | String a _ => accepts c a = false end /\
    star c s k = k s2.
Proof.
  intros Hk. induction s as [|a s IH]; simpl.
  - exists EmptyString, EmptyString. auto.
  - destruct (accepts c a) eqn:Ha.
    + destruct IH as (s1 & s2 & -> & Hall & Hend & ->).
      exists (String a s1), s2. simpl. rewrite Ha, Hall.
      destruct (Hk s2) as [r ->]. auto.
    + exists EmptyString, (String a s). auto.
Qed.

End RegexFacts.

(** ** Discovery and status *)

Section Registry.
Import StringFacts.
Variable env : Env.

Lemma execAsync_resolved (cmd : string) (w : World) (out : string * string)
    (w' : World) :
  execAsync env cmd w = (Ok out, w') ->
  spawn env (trace w) cmd = Exited 0 (fst out) (snd out) /\
  w' = mkWorld (trace w ++ [EvExec cmd]) (files w).
Proof.
  unfold execAsync. destruct (spawn env (trace w) cmd) as [e|st o e].
  - discriminate.
  - destruct (Z.eqb_spec st 0) as [->|]; [|discriminate].
    intros [= <- <-]. auto.
Qed.

Lemma execAsync_world (cmd : string) (w : World) :
  snd (execAsync env cmd w) = mkWorld (trace w ++ [EvExec cmd]) (files w).
Proof.
  unfold execAsync. destruct (spawn env (trace w) cmd) as [e|st o e];
    [reflexivity |]. now destruct (st =? 0)%Z.
Qed.

(** A discovery that returns ran both queries, and its records are parsed
    from what they printed. *)
Lemma getAllPrinters_ok (w : World) (ps : list Printer) (w' : World) :
  getAllPrinters env w = (Ok ps, w') ->
  (exists printerList printerDevices,
      ps = parsePrinters printerList printerDevices) /\
  w' = mkWorld (trace w ++ [EvExec "lpstat -p -d"; EvExec "lpstat -v"])
               (files w).
Proof.
  unfold getAllPrinters, try_catch, bind, ret, throw.
  destruct (execAsync env "lpstat -p -d" w) as [[p|e] w1] eqn:H1;
    [|discriminate].
  apply execAsync_resolved in H1 as [_ ->].
  destruct (execAsync env "lpstat -v" _) as [[d|e] w2] eqn:H2;
    [|discriminate].
  apply execAsync_resolved in H2 as [_ ->]. cbn [trace files].
  intros [= <- <-]. rewrite <- (assoc_L (++)). eauto.
Qed.

(** The flags of a parsed record are the two tests on its [uri]. *)
Lemma parsePrinterLine_flags (deviceLines : list string)
    (defaultPrinter line : string) (p : Printer) :
  parsePrinterLine deviceLines defaultPrinter line = Some p ->
  isUSB p = includes (toLowerCase (uri p)) "usb" /\
  isBluetooth p = includes (toLowerCase (uri p)) "bluetooth" ||
                  includes (toLowerCase (uri p)) "bth".
Proof.
  unfold parsePrinterLine.
  destruct (js_match re_printer line) as [m|]; [|discriminate].
  destruct (match find _ deviceLines with
            | Some d => js_match re_device d
            | None => None
            end) as [um|]; intros [= <-]; cbn [isUSB isBluetooth uri];
    split; reflexivity.
Qed.

(** C9. Every record [getAllPrinters] returns has [isUSB] set exactly when
    its [uri] contains "usb", letter case aside, and [isBluetooth] exactly
    when the [uri] contains "bluetooth" or "bth"; the flags are functions
    of the [uri] alone, whatever the status text. *)
Theorem getAllPrinters_flags_from_uri (w : World) (ps : list Printer)
    (w' : World) (p : Printer) :
  getAllPrinters env w = (Ok ps, w') ->
  In p ps ->
  (isUSB p = true <-> contains_ignoring_case (uri p) "usb") /\
  (isBluetooth p = true <->
     contains_ignoring_case (uri p) "bluetooth" \/
     contains_ignoring_case (uri p) "bth").
Proof.
  intros Hget Hin.
  apply getAllPrinters_ok in Hget as [(l & d & ->) _].
  unfold parsePrinters in Hin.
  apply list_elem_of_In, list_elem_of_omap in Hin as (line & _ & Hline).
  apply parsePrinterLine_flags in Hline as [-> ->].
  rewrite orb_true_iff, !includes_lower_spec by reflexivity.
  tauto.
Qed.

(** How [isPrinterEnabled] ends, by what the status command did. *)
Lemma isPrinterEnabled_run (printerName : string) (w : World) :
  fst (isPrinterEnabled env printerName w) =
  match spawn env (trace w) (statusCommand printerName) with
  | SpawnFailed e =>
      Throw (Error ("Failed to check printer status: " +:+ message e))
  | Exited st out err =>
      if (st =? 0)%Z then Ok (negb (statusIsDisabled out))
      else Throw (Error ("Failed to check printer status: " +:+
                         "Command failed: " +:+ statusCommand printerName
                         +:+ String newline err))
  end.
Proof.
  unfold isPrinterEnabled, try_catch, bind, execAsync.
  destruct (spawn env _ _) as [e|st out err]; [reflexivity |].
  destruct (st =? 0)%Z; reflexivity.
Qed.

Lemma statusIsDisabled_spec (text : string) :
  statusIsDisabled text = true <->
  contains_ignoring_case text "disabled" \/
  contains_ignoring_case text "paused".
Proof.
  unfold statusIsDisabled.
  rewrite orb_true_iff, !includes_lower_spec by reflexivity. tauto.
Qed.

(** C8. When the status query prints [text], [isPrinterEnabled] returns
    false exactly when [text] contains "disabled" or "paused", letter case
    aside, and true for every other text; the empty text gives true. *)
Theorem isPrinterEnabled_by_status_text (printerName : string) (w : World)
    (text err : string) :
  spawn env (trace w) (statusCommand printerName) = Exited 0 text err ->
  (fst (isPrinterEnabled env printerName w) = Ok false <->
     contains_ignoring_case text "disabled" \/
     contains_ignoring_case text "paused") /\
  (fst (isPrinterEnabled env printerName w) = Ok true <->
     ~ (contains_ignoring_case text "disabled" \/
        contains_ignoring_case text "paused")) /\
  (text = EmptyString -> fst (isPrinterEnabled env printerName w) = Ok true).
Proof.
  intros Hq. rewrite isPrinterEnabled_run, Hq. cbn [Z.eqb].
  rewrite <- statusIsDisabled_spec.
  destruct (statusIsDisabled text) eqn:Hd; cbn [negb].
  - repeat split; try congruence; try tauto.
    intros ->. vm_compute in Hd. discriminate.
  - repeat split; congruence.
Qed.

(** C1, amended. Registered or not, a printer is reported enabled exactly
    when its status command exits with status 0 and prints neither
    "disabled" nor "paused"; [isPrinterEnabled] throws exactly when the
    command cannot be run or exits with another status. *)
Theorem isPrinterEnabled_by_command_outcome (printerName : string)
    (w : World) :
  (fst (isPrinterEnabled env printerName w) = Ok true <->
     exists text err,
       spawn env (trace w) (statusCommand printerName) = Exited 0 text err /\
       ~ contains_ignoring_case text "disabled" /\
       ~ contains_ignoring_case text "paused") /\
  ((exists e, fst (isPrinterEnabled env printerName w) = Throw e) <->
     (exists e,
        spawn env (trace w) (statusCommand printerName) = SpawnFailed e) \/
     (exists st text err,
        spawn env (trace w) (statusCommand printerName) = Exited st text err /\
        st <> 0%Z)).
Proof.
  rewrite isPrinterEnabled_run.
  destruct (spawn env _ _) as [e|st out err].
  - split.
    + split; [discriminate | intros (? & ? & [=] & _)].
    + split; eauto.
  - destruct (Z.eqb_spec st 0) as [->|Hst].
    + split.
      * pose proof (statusIsDisabled_spec out) as Hs.
        destruct (statusIsDisabled out); cbn [negb]; split.
        -- discriminate.
        -- intros (? & ? & [= <- <-] & H1 & H2). tauto.
        -- intros _. exists out, err. split; [reflexivity |].
           split; intros H; assert (false = true) by tauto; discriminate.
        -- reflexivity.
      * split.
        -- intros [e [=]].
        -- intros [[e [=]] | (? & ? & ? & [= <- <- <-] & Hne)]. congruence.
    + split.
      * split; [discriminate |]. intros (? & ? & [= -> _ _] & _). congruence.
      * split; eauto 8.
Qed.

End Registry.

(** ** The job id *)

Section JobId.
Import StringFacts RegexFacts.

Lemma js_match_here (r : regex) (s : string) (cs : captures) :
  js_match r s = Some cs ->
  exists pre s', s = pre +:+ s' /\ match_here r s' = Some cs.
Proof.
  induction s as [|a s IH]; simpl; intros H.
  - destruct (match_here r EmptyString) eqn:Hh; [|discriminate].
    exists EmptyString, EmptyString. split; [reflexivity | congruence].
  - destruct (match_here r (String a s)) eqn:Hh.
    + exists EmptyString, (String a s). split; [reflexivity | congruence].
    + destruct (IH H) as (pre & s' & -> & Hs).
      exists (String a pre), s'. auto.
Qed.




End JobId.

(** ** The job submitter *)

Section Submitter.
Variable env : Env.

Lemma only_runs_refl (w : World) : only_runs w w.
Proof.
  exists []. rewrite (right_id_L [] (++)). now destruct w.
Qed.

Lemma only_runs_trans (w1 w2 w3 : World) :
  only_runs w1 w2 -> only_runs w2 w3 -> only_runs w1 w3.
Proof.
  intros (e1 & -> & H1) (e2 & -> & H2). exists (e1 ++ e2).
  cbn [trace files]. rewrite <- (assoc_L (++)), forallb_app, H1, H2. auto.
Qed.

Lemma execAsync_runs (cmd : string) (w : World) :
  only_runs w (snd (execAsync env cmd w)).
Proof. rewrite execAsync_world. now exists [EvExec cmd]. Qed.

Lemma getAllPrinters_runs (w : World) :
  only_runs w (snd (getAllPrinters env w)).
Proof.
  unfold getAllPrinters, try_catch, bind, ret, throw.
  pose proof (execAsync_runs "lpstat -p -d" w) as H1.
  destruct (execAsync env "lpstat -p -d" w) as [[p|e] w1]; [|exact H1].
  pose proof (execAsync_runs "lpstat -v" w1) as H2.
  destruct (execAsync env "lpstat -v" w1) as [[d|e] w2];
    exact (only_runs_trans _ _ _ H1 H2).
Qed.

Lemma submitImage_runs (printerName imagePath : string)
    (options : PrintOptions) (w : World) :
  only_runs w (snd (submitImage env printerName imagePath options w)).
Proof.
  unfold submitImage, bind, ret, throw.
  pose proof (getAllPrinters_runs w) as H1.
  destruct (getAllPrinters env w) as [[ps|e] w1]; [|exact H1].
  destruct (find _ ps); [|exact H1].
  pose proof (execAsync_runs
                (buildPrintCommand printerName imagePath options) w1) as H2.
  destruct (execAsync env _ w1) as [[out|e] w2];
    exact (only_runs_trans _ _ _ H1 H2).
Qed.

Lemma validateImageFile_world (filePath : string) (w : World) :
  snd (validateImageFile env filePath w) = w.
Proof.
  unfold validateImageFile, try_catch, bind, fs_access, ret, throw.
  destruct (files w !! filePath) as [data|].
  - destruct (access_error env (trace w) filePath) as [e|].
    + now destruct (code_is e "ENOENT").
    + destruct (existsb _ supportedFormats); [reflexivity |].
      now destruct (code_is _ "ENOENT").
  - now destruct (code_is _ "ENOENT").
Qed.

(** The [finally] block never throws. *)
Lemma cleanupTemp_returns (tempFilePath : option string) (w : World) :
  fst (cleanupTemp env tempFilePath w) = Ok tt.
Proof.
  destruct tempFilePath as [path|]; [|reflexivity].
  unfold cleanupTemp, try_catch, fs_unlink, ret.
  destruct (files w !! path); [|reflexivity].
  destruct (unlink_error env (trace w) path); reflexivity.
Qed.

(** The outcome of a call is the outcome of its [try]/[catch]. *)
Lemma printImage_outcome (printerName : string) (src : ImageSource)
    (options : PrintOptions) (w : World) :
  fst (printImage env printerName src options w) =
  fst (try_catch
         (imagePath <- prepareImage env (tempFilePathOf env w) src ;;
          submitImage env printerName imagePath options)
         (fun error => throw (Error ("Failed to print: " +:+ message error)))
         w).
Proof.
  unfold printImage, try_finally.
  destruct (try_catch _ _ w) as [r w1].
  pose proof (cleanupTemp_returns
                match src with
                | FromPath _ => None
                | FromBuffer _ => Some (tempFilePathOf env w)
                end w1) as Hc.
  destruct (cleanupTemp env _ w1) as [[[]|e] w2]; [reflexivity |].
  discriminate.
Qed.

(** When the input is ready, the printer is in the discovery result and
    the submit command exits with status 0, the call returns the job id
    extracted from what the command printed. *)
Lemma printImage_submitted (printerName : string) (src : ImageSource)
    (options : PrintOptions) (w w1 w2 : World) (imagePath : string)
    (ps : list Printer) (p : Printer) (stdout stderr : string) :
  prepareImage env (tempFilePathOf env w) src w = (Ok imagePath, w1) ->
  getAllPrinters env w1 = (Ok ps, w2) ->
  find (fun p => String.eqb (name p) printerName) ps = Some p ->
  spawn env (trace w2) (buildPrintCommand printerName imagePath options)
    = Exited 0 stdout stderr ->
  fst (printImage env printerName src options w) = Ok (extractJobId stdout).
Proof.
  intros Hprep Hget Hfind Hrun.
  rewrite printImage_outcome.
  unfold try_catch, bind, submitImage, bind.
  rewrite Hprep, Hget, Hfind. unfold execAsync. now rewrite Hrun.
Qed.

Lemma commands_app (e1 e2 : list Event) :
  commands (e1 ++ e2) = commands e1 ++ commands e2.
Proof. apply omap_app. Qed.

Lemma events_of_app {A} (c : M A) (w : World) (evs : list Event) :
  trace (snd (c w)) = trace w ++ evs -> events_of c w = evs.
Proof. unfold events_of. intros ->. apply drop_app_length. Qed.

(** Getting the input ready runs no command. *)
Lemma prepareImage_trace (path : string) (src : ImageSource) (w : World) :
  exists evs,
    trace (snd (prepareImage env path src w)) = trace w ++ evs /\
    commands evs = [].
Proof.
  destruct src as [imagePath|data]; unfold prepareImage, bind, ret.
  - pose proof (validateImageFile_world imagePath w) as Hv.
    destruct (validateImageFile env imagePath w) as [[[]|e] wv];
      cbn [snd] in *; subst wv; exists [];
      now rewrite (right_id_L [] (++)).
  - unfold fs_writeFile.
    destruct (write_error env (trace w) path); cbn [snd trace]; eauto.
Qed.

(** Neither does the [finally] block. *)
Lemma cleanupTemp_trace (tempFilePath : option string) (w : World) :
  exists evs,
    trace (snd (cleanupTemp env tempFilePath w)) = trace w ++ evs /\
    commands evs = [].
Proof.
  destruct tempFilePath as [path|].
  - unfold cleanupTemp, try_catch, fs_unlink, ret.
    destruct (files w !! path);
      [destruct (unlink_error env (trace w) path) |];
      cbn [snd trace]; eauto.
  - exists []. cbn. now rewrite (right_id_L [] (++)).
Qed.

(** C2. When the printer name is absent from the discovery result the
    call obtains, the call fails with "Printer not found" (wrapped by the
    catch block) and the only commands it runs are the two discovery
    queries: no submit command is executed. *)
Theorem printImage_printer_not_found (printerName : string)
    (src : ImageSource) (options : PrintOptions) (w w1 w2 : World)
    (imagePath : string) (ps : list Printer) :
  prepareImage env (tempFilePathOf env w) src w = (Ok imagePath, w1) ->
  getAllPrinters env w1 = (Ok ps, w2) ->
  ~ In printerName (map name ps) ->
  fst (printImage env printerName src options w) =
    Throw (Error ("Failed to print: Printer not found: " +:+ printerName)) /\
  commands (events_of (printImage env printerName src options) w) =
    ["lpstat -p -d"; "lpstat -v"].
Proof.
  intros Hprep Hget Habsent.
  assert (Hfind : find (fun p => String.eqb (name p) printerName) ps = None).
  { destruct (find _ ps) as [p|] eqn:Hf; [|reflexivity].
    apply find_some in Hf as [Hin Heq]. apply String.eqb_eq in Heq.
    exfalso. apply Habsent. rewrite <- Heq. now apply in_map. }
  split.
  - rewrite printImage_outcome.
    unfold try_catch, bind, submitImage, bind.
    now rewrite Hprep, Hget, Hfind.
  - destruct (prepareImage_trace (tempFilePathOf env w) src w)
      as (e1 & He1 & Hc1).
    rewrite Hprep in He1. cbn [snd] in He1.
    pose proof Hget as Hg. apply getAllPrinters_ok in Hg as [_ Hw2].
    set (tmp := match src with
                | FromPath _ => None
                | FromBuffer _ => Some (tempFilePathOf env w)
                end).
    destruct (cleanupTemp_trace tmp w2) as (e3 & He3 & Hc3).
    rewrite (events_of_app _ _ (e1 ++ [EvExec "lpstat -p -d";
                                       EvExec "lpstat -v"] ++ e3)).
    + rewrite !commands_app, Hc1, Hc3. reflexivity.
    + unfold printImage, try_finally, try_catch, bind, submitImage, bind.
      rewrite Hprep, Hget, Hfind. fold tmp. unfold throw.
      destruct (cleanupTemp env tmp w2) as [[[]|e] w3]; cbn [snd] in *;
        rewrite He3, Hw2; cbn [trace]; rewrite He1;
        now rewrite <- !(assoc_L (++)).
Qed.

End Submitter.

(** ** The temporary file of a buffer *)

Section TempFile.
Variable env : Env.




End TempFile.


(** ** Traces only grow *)

Section Traces.
Variable env : Env.

Lemma grows_ret {A} (a : A) : grows (ret a).
Proof. intros w. exists []. cbn. now rewrite (right_id_L [] (++)). Qed.

Lemma grows_throw {A} (e : Exn) : grows (@throw A e).
Proof. intros w. exists []. cbn. now rewrite (right_id_L [] (++)). Qed.

Lemma grows_emit (ev : Event) : grows (emit ev).
Proof. intros w. now exists [ev]. Qed.

Lemma grows_bind {A B} (c : M A) (k : A -> M B) :
  grows c -> (forall a, grows (k a)) -> grows (bind c k).
Proof.
  intros Hc Hk w. unfold bind. destruct (Hc w) as [e1 H1].
  destruct (c w) as [[a|e] w1]; cbn [snd] in *; [|eauto].
  destruct (Hk a w1) as [e2 H2]. exists (e1 ++ e2).
  now rewrite H2, H1, (assoc_L (++)).
Qed.

Lemma grows_try_catch {A} (body : M A) (handler : Exn -> M A) :
  grows body -> (forall e, grows (handler e)) -> grows (try_catch body handler).
Proof.
  intros Hb Hh w. unfold try_catch. destruct (Hb w) as [e1 H1].
  destruct (body w) as [[a|e] w1]; cbn [snd] in *; [eauto |].
  destruct (Hh e w1) as [e2 H2]. exists (e1 ++ e2).
  now rewrite H2, H1, (assoc_L (++)).
Qed.

Lemma grows_execAsync (cmd : string) : grows (execAsync env cmd).
Proof. intros w. rewrite execAsync_world. now exists [EvExec cmd]. Qed.

Lemma grows_getAllPrinters : grows (getAllPrinters env).
Proof.
  intros w. destruct (getAllPrinters_runs env w) as (evs & -> & _). eauto.
Qed.

Create HintDb grows.
#[local] Hint Resolve grows_ret grows_throw grows_emit grows_execAsync
  grows_getAllPrinters grows_bind grows_try_catch : grows.

Lemma grows_isPrinterEnabled (printerName : string) :
  grows (isPrinterEnabled env printerName).
Proof. unfold isPrinterEnabled. auto with grows. Qed.

Lemma grows_enablePrinter (printerName : string) :
  grows (enablePrinter env printerName).
Proof. unfold enablePrinter. auto 6 with grows. Qed.

#[local] Hint Resolve grows_isPrinterEnabled grows_enablePrinter : grows.

Lemma grows_checkPrinter (options : WatchOptions) (printer : Printer) :
  grows (checkPrinter env options printer).
Proof.
  unfold checkPrinter. apply grows_bind; [auto with grows |].
  intros [|]; cbn [negb]; [auto with grows |].
  destruct (onResume options); auto with grows.
Qed.

Lemma grows_checkEach (options : WatchOptions) (printers : list Printer) :
  grows (checkEach env options printers).
Proof.
  induction printers as [|p rest IH]; cbn [checkEach];
    auto using grows_checkPrinter with grows.
Qed.

(** Discovery opens with the printer-list query. *)
Lemma getAllPrinters_first :
  first_event (getAllPrinters env) (EvExec "lpstat -p -d").
Proof.
  intros w. unfold getAllPrinters, try_catch, bind, ret, throw.
  pose proof (execAsync_world env "lpstat -p -d" w) as H1.
  destruct (execAsync env "lpstat -p -d" w) as [[p|e] w1];
    cbn [snd] in H1; subst w1; [|now exists []].
  pose proof (execAsync_world env "lpstat -v" (mkWorld (trace w ++ [EvExec "lpstat -p -d"]) (files w))) as H2.
  destruct (execAsync env "lpstat -v" _) as [[d|e] w2];
    cbn [snd] in H2; subst w2; cbn [snd trace];
    exists [EvExec "lpstat -v"]; now rewrite <- (assoc_L (++)).
Qed.

Lemma first_bind {A B} (c : M A) (k : A -> M B) (ev : Event) :
  first_event c ev -> (forall a, grows (k a)) -> first_event (bind c k) ev.
Proof.
  intros Hc Hk w. unfold bind. destruct (Hc w) as [r1 H1].
  destruct (c w) as [[a|e] w1]; cbn [snd] in *; [|eauto].
  destruct (Hk a w1) as [e2 H2]. exists (r1 ++ e2).
  now rewrite H2, H1, <- (assoc_L (++)).
Qed.

Lemma passBody_first (options : WatchOptions) :
  first_event (passBody env options) (EvExec "lpstat -p -d").
Proof.
  apply first_bind; [|intros ps; apply grows_checkEach].
  unfold printersToCheck.
  destruct (printerNames options) as [[|n ns]|];
    (apply first_bind; [apply getAllPrinters_first |
                        intros ps; apply grows_ret]).
Qed.

End Traces.

(** ** The health monitor *)

Section Monitor.
Variable env : Env.
Variable options : WatchOptions.

(** A pass never throws: it ends in the world its [try] block left, with
    the report of the exception, if any, added. *)
Lemma pass_run (w : World) :
  pass env options w =
  (Ok tt,
   mkWorld (trace (snd (passBody env options w)) ++
            reported options (fst (passBody env options w)))
           (files (snd (passBody env options w)))).
Proof.
  unfold pass, try_catch, reported.
  destruct (passBody env options w) as [[[]|e] w1]; cbn [fst snd].
  - rewrite (right_id_L [] (++)). now destruct w1.
  - destruct (onError options); [reflexivity |].
    unfold ret. rewrite (right_id_L [] (++)). now destruct w1.
Qed.

Lemma check_run (stopped_in_flight : bool) (n : nat) (w : World) :
  check env options stopped_in_flight (mkWatcher true n) w =
  (Ok (mkWatcher (negb stopped_in_flight)
                 (if stopped_in_flight then n else S n)),
   mkWorld (trace (snd (pass env options w)) ++ rescheduled options stopped_in_flight)
           (files (snd (pass env options w)))).
Proof.
  unfold check, bind. cbn [isRunning negb timers andb].
  rewrite pass_run. cbn [fst snd trace files].
  destruct stopped_in_flight; cbn [negb isRunning rescheduled].
  - unfold ret. now rewrite (right_id_L [] (++)).
  - reflexivity.
Qed.

Lemma check_stopped (stopped_in_flight : bool) (n : nat) (w : World) :
  check env options stopped_in_flight (mkWatcher false n) w =
  (Ok (mkWatcher false n), w).
Proof. reflexivity. Qed.

Lemma check_events (stopped_in_flight : bool) (n : nat) (w : World) :
  events_of (check env options stopped_in_flight (mkWatcher true n)) w =
  events_of (passBody env options) w ++
  reported options (fst (passBody env options w)) ++ rescheduled options stopped_in_flight.
Proof.
  apply events_of_app. rewrite check_run, pass_run. cbn [snd trace].
  destruct (passBody_first env options w) as [rest Hb].
  rewrite (events_of_app _ _ _ Hb), Hb. now rewrite <- !(assoc_L (++)).
Qed.

(** C5. A pass of a running watcher in which discovery, a status check or
    an enable throws does not throw itself: [check] returns, the exception
    went to [onError] (when one was passed) right after what the pass had
    done, and the next pass is scheduled unless the watcher was stopped
    meanwhile. *)
Theorem check_survives_throw (stopped_in_flight : bool) (n : nat)
    (w : World) (e : Exn) :
  fst (passBody env options w) = Throw e ->
  fst (check env options stopped_in_flight (mkWatcher true n) w) =
    Ok (mkWatcher (negb stopped_in_flight)
                  (if stopped_in_flight then n else S n)) /\
  events_of (check env options stopped_in_flight (mkWatcher true n)) w =
    events_of (passBody env options) w ++
    (if onError options then [EvOnError (message e)] else []) ++
    (if stopped_in_flight then [] else [EvSetTimeout (intervalOf options)]).
Proof.
  intros Hthrow. split.
  - now rewrite check_run.
  - rewrite check_events, Hthrow. reflexivity.
Qed.

Lemma steps_stopped (actions : list Action) (n : nat) (w : World) :
  exists n', steps env options actions (mkWatcher false n) w =
             (Ok (mkWatcher false n'), w) /\ n' <= n.
Proof.
  revert n. induction actions as [|a rest IH]; intros n.
  - exists n. auto.
  - cbn [steps]. unfold bind. destruct a as [b|]; cbn [step].
    + cbn [timers isRunning]. destruct n as [|m].
      * apply IH.
      * rewrite check_stopped. destruct (IH m) as (n' & -> & Hle).
        exists n'. split; [reflexivity | lia].
    + apply IH.
Qed.

(** C6. Starting the watcher starts a pass at once, its discovery query is
    the first thing that happens, and the pass runs to its end; a stop
    while that pass is in flight leaves no timeout pending.  Once the stop
    handle has been invoked, whatever fires or is called later changes
    nothing: no pass starts, no timeout is set, and the watcher stays
    stopped. *)
Theorem watcher_starts_once_and_stops :
  (forall stopped_in_flight w,
      (exists rest,
          events_of (watchAndResumePrinters env options stopped_in_flight) w
          = EvExec "lpstat -p -d" :: rest) /\
      fst (watchAndResumePrinters env options stopped_in_flight w) =
        Ok (mkWatcher (negb stopped_in_flight)
                      (if stopped_in_flight then 0 else 1))) /\
  (forall n w,
      fst (check env options true (mkWatcher true n) w) =
        Ok (mkWatcher false n)) /\
  (forall actions ws w,
      exists ws',
        steps env options actions (stop ws) w = (Ok ws', w) /\
        isRunning ws' = false /\ timers ws' <= timers ws).
Proof.
  split; [|split; [intros n w; now rewrite check_run |]].
  - intros b w. unfold watchAndResumePrinters.
    split.
    + rewrite check_events.
      destruct (passBody_first env options w) as [rest Hb].
      rewrite (events_of_app _ _ _ Hb). cbn. eauto.
    + now rewrite check_run.
  - intros actions ws w. unfold stop.
    destruct (steps_stopped actions (timers ws) w) as (n' & -> & Hle).
    eauto.
Qed.

End Monitor.

Section MonitorPass.
Variable env : Env.
Variable options : WatchOptions.

Lemma checkEach_app (l1 l2 : list Printer) (w : World) :
  checkEach env options (l1 ++ l2) w =
  match checkEach env options l1 w with
  | (Ok _, w') => checkEach env options l2 w'
  | (Throw e, w') => (Throw e, w')
  end.
Proof.
  revert w. induction l1 as [|p l1 IH]; intros w; [reflexivity |].
  cbn [app checkEach]. unfold bind.
  destruct (checkPrinter env options p w) as [[[]|e] w1]; [apply IH | reflexivity].
Qed.

(** C10. When the status check or the enable of one candidate throws, the
    loop ends there: the candidates after it are not examined in this
    pass, whatever they are; the exception is caught once, for the whole
    pass, and the next pass, which starts from a new discovery, is
    scheduled. *)
Theorem pass_skips_remaining_candidates (w w0 w1 w2 : World)
    (before after : list Printer) (p : Printer) (e : Exn) :
  printersToCheck env options w = (Ok (before ++ p :: after), w0) ->
  checkEach env options before w0 = (Ok tt, w1) ->
  checkPrinter env options p w1 = (Throw e, w2) ->
  checkEach env options (before ++ p :: after) w0 = (Throw e, w2) /\
  pass env options w =
    (Ok tt, mkWorld (trace w2 ++ reported options (Throw e)) (files w2)) /\
  forall n,
    check env options false (mkWatcher true n) w =
    (Ok (mkWatcher true (S n)),
     mkWorld (trace w2 ++ reported options (Throw e) ++
              [EvSetTimeout (intervalOf options)]) (files w2)).
Proof.
  intros Hlist Hbefore Hp.
  assert (Hloop : checkEach env options (before ++ p :: after) w0
                  = (Throw e, w2)).
  { rewrite checkEach_app, Hbefore. cbn [checkEach]. unfold bind.
    now rewrite Hp. }
  assert (Hbody : passBody env options w = (Throw e, w2)).
  { unfold passBody, bind. now rewrite Hlist. }
  split; [exact Hloop |]. split.
  - now rewrite pass_run, Hbody.
  - intros n. rewrite check_run, pass_run, Hbody. cbn [fst snd trace files].
    unfold rescheduled. now rewrite <- (assoc_L (++)).
Qed.

End MonitorPass.

(** ** The orchestrator *)

Section Orchestrator.
Variable env : Env.
Variable PRINTER_NAME : string.

(** C4. When the image is generated, the handler answers with it, status
    200, whatever choosing the printer and submitting the job did: an
    exception of that step is caught there and changes nothing in the
    response. *)
Theorem handleGenerate_returns_image (prompt : JsVal) (w : World)
    (buffer : Buffer) (others : GenResponse) :
  js_truthy prompt = true ->
  generateImages env (trace w) (js_to_string prompt)
    = inr (Some buffer :: others) ->
  fst (handleGenerate env PRINTER_NAME prompt w) =
    Ok (ImageResponse 200 "image/png" buffer) /\
  forall w',
    fst (try_catch (printGenerated env PRINTER_NAME buffer)
                   (fun printError => ret tt) w') = Ok tt.
Proof.
  intros Htruthy Hgen.
  assert (Hprint : forall w',
             fst (try_catch (printGenerated env PRINTER_NAME buffer)
                            (fun printError => ret tt) w') = Ok tt).
  { intros w'. unfold try_catch.
    now destruct (printGenerated env PRINTER_NAME buffer w')
      as [[[]|e] w'']. }
  split; [|exact Hprint].
  unfold handleGenerate. rewrite Htruthy. cbn [negb].
  unfold try_catch at 1. unfold bind at 1. unfold generateImage.
  rewrite Hgen. unfold bind.
  specialize (Hprint w).
  destruct (try_catch (printGenerated env PRINTER_NAME buffer) _ w)
    as [[[]|e] w1]; [reflexivity | discriminate].
Qed.

End Orchestrator.

(** ** The model at work on the scenarios *)

Module Runs.
Import Scenario.

(** Discovery of the one USB printer, which is the system default. *)
Example discovery_of_one_usb_printer :
  getAllPrinters (env_of (cups false) false) start = (Ok [canon], discovered).
Proof. vm_compute. reflexivity. Qed.

(** A pass over a paused printer enables it once and calls [onResume] once;
    the next pass finds it enabled and does neither. *)
Example paused_printer_is_resumed_once :
  events_of (steps (env_of (cups true) false) watch_one
               [TimerFires false] (mkWatcher true 1)) start =
    [EvExec "lpstat -p -d"; EvExec "lpstat -v";
     EvExec (statusCommand "Canon_XK130");
     EvExec ("cupsenable " +:+ quoted "Canon_XK130");
     EvExec ("cupsaccept " +:+ quoted "Canon_XK130");
     EvOnResume "Canon_XK130"; EvSetTimeout 30000] /\
  events_of (steps (env_of (cups true) false) watch_one
               [TimerFires false; TimerFires false] (mkWatcher true 1)) start =
    [EvExec "lpstat -p -d"; EvExec "lpstat -v";
     EvExec (statusCommand "Canon_XK130");
     EvExec ("cupsenable " +:+ quoted "Canon_XK130");
     EvExec ("cupsaccept " +:+ quoted "Canon_XK130");
     EvOnResume "Canon_XK130"; EvSetTimeout 30000;
     EvExec "lpstat -p -d"; EvExec "lpstat -v";
     EvExec (statusCommand "Canon_XK130"); EvSetTimeout 30000].
Proof. vm_compute. split; reflexivity. Qed.

(** Printing a buffer to an unknown printer is rejected and leaves no file. *)
Example ghost_printer_leaves_no_file :
  let call :=
    printImage (env_of (cups false) false) "Ghost" (FromBuffer png) no_options in
  fst (call start) = Throw (Error "Failed to print: Printer not found: Ghost") /\
  files (snd (call start)) = ∅.
Proof. vm_compute. split; reflexivity. Qed.

(** The flags come in the documented order, the file last. *)
Example print_command_of_all_options :
  buildPrintCommand "P" "/tmp/x.png"
    (mkOptions (Some 2%Z) (Some "A4") true true [("sides", "one-sided")]) =
  "lp -d " +:+ quoted "P" +:+
  " -n 2 -o media=A4 -o ColorModel=Gray -o fit-to-page -o sides=one-sided " +:+
  quoted "/tmp/x.png".
Proof. vm_compute. reflexivity. Qed.

(** With no printer of the configured name the handler falls back to the
    USB printer, and answers with the image. *)
Example fallback_to_usb_printer :
  let run :=
    handleGenerate (env_of (cups false) false) "Canon XK130 series 3"
      (JString "a cat") start in
  fst run = Ok (ImageResponse 200 "image/png" png) /\
  commands (trace (snd run)) =
    ["lpstat -p -d"; "lpstat -v"; "lpstat -p -d"; "lpstat -v";
     "lpstat -p -d"; "lpstat -v";
     buildPrintCommand "Canon_XK130" temp_path
       (mkOptions (Some 1%Z) None false true [])].
Proof. vm_compute. split; reflexivity. Qed.

End Runs.

(** ** The theorems at work on the scenarios *)

Module Witnesses.
Import Scenario.

(** C1, as stated, fails: "Ghost" is not in the registry, its status
    command is run and exits with status 1, and [isPrinterEnabled] throws
    instead of returning true. *)
Lemma unknown_printer_not_reported_enabled :
  let env := env_of (cups false) false in
  getAllPrinters env start = (Ok [canon], discovered) /\
  ~ In "Ghost" (map name [canon]) /\
  (exists err,
      spawn env (trace discovered) (statusCommand "Ghost")
      = Exited 1 EmptyString err) /\
  (exists e, fst (isPrinterEnabled env "Ghost" discovered) = Throw e) /\
  fst (isPrinterEnabled env "Ghost" discovered) <> Ok true.
Proof.
  cbv zeta. split; [vm_compute; reflexivity |].
  split; [intros [H|[]]; discriminate |].
  split; [eexists; vm_compute; reflexivity |].
  split; [eexists; vm_compute; reflexivity | vm_compute; discriminate].
Qed.

Lemma getAllPrinters_flags_from_uri_witness :
  getAllPrinters (env_of (cups false) false) start
    = (Ok [canon], discovered) /\
  In canon [canon] /\
  (isUSB canon = true <-> contains_ignoring_case (uri canon) "usb") /\
  (isBluetooth canon = true <->
     contains_ignoring_case (uri canon) "bluetooth" \/
     contains_ignoring_case (uri canon) "bth").
Proof.
  assert (H1 : getAllPrinters (env_of (cups false) false) start
               = (Ok [canon], discovered)) by (vm_compute; reflexivity).
  assert (H2 : In canon [canon]) by (left; reflexivity).
  split; [exact H1 |]. split; [exact H2 |].
  exact (getAllPrinters_flags_from_uri _ _ _ _ _ H1 H2).
Defined.

Lemma isPrinterEnabled_by_status_text_witness :
  let call :=
    isPrinterEnabled (env_of (cups true) false) "Canon_XK130" start in
  spawn (env_of (cups true) false) (trace start)
    (statusCommand "Canon_XK130") = Exited 0 paused_text EmptyString /\
  (fst call = Ok false <->
     contains_ignoring_case paused_text "disabled" \/
     contains_ignoring_case paused_text "paused") /\
  (fst call = Ok true <->
     ~ (contains_ignoring_case paused_text "disabled" \/
        contains_ignoring_case paused_text "paused")) /\
  (paused_text = EmptyString -> fst call = Ok true).
Proof.
  assert (H : spawn (env_of (cups true) false) (trace start)
                (statusCommand "Canon_XK130")
              = Exited 0 paused_text EmptyString)
    by (vm_compute; reflexivity).
  split; [exact H |].
  exact (isPrinterEnabled_by_status_text _ _ _ _ _ H).
Defined.

Lemma printImage_printer_not_found_witness :
  let env := env_of (cups false) false in
  let w1 := mkWorld [EvWriteFile temp_path true] {[ temp_path := png ]} in
  let w2 := mkWorld [EvWriteFile temp_path true; EvExec "lpstat -p -d";
                     EvExec "lpstat -v"] {[ temp_path := png ]} in
  prepareImage env (tempFilePathOf env start) (FromBuffer png) start
    = (Ok temp_path, w1) /\
  getAllPrinters env w1 = (Ok [canon], w2) /\
  ~ In "Ghost" (map name [canon]) /\
  fst (printImage env "Ghost" (FromBuffer png) no_options start) =
    Throw (Error ("Failed to print: Printer not found: " +:+ "Ghost")) /\
  commands (events_of (printImage env "Ghost" (FromBuffer png) no_options)
              start) = ["lpstat -p -d"; "lpstat -v"].
Proof.
  intros env w1 w2.
  assert (H1 : prepareImage env (tempFilePathOf env start) (FromBuffer png)
                 start = (Ok temp_path, w1)) by (vm_compute; reflexivity).
  assert (H2 : getAllPrinters env w1 = (Ok [canon], w2))
    by (vm_compute; reflexivity).
  assert (H3 : ~ In "Ghost" (map name [canon]))
    by (intros [H|[]]; discriminate).
  split; [exact H1 |]. split; [exact H2 |]. split; [exact H3 |].
  exact (printImage_printer_not_found env "Ghost" (FromBuffer png)
           no_options start w1 w2 temp_path [canon] H1 H2 H3).
Defined.

Lemma handleGenerate_returns_image_witness :
  let env := env_of down false in
  js_truthy (JString "a cat") = true /\
  generateImages env (trace start) (js_to_string (JString "a cat"))
    = inr [Some png] /\
  fst (handleGenerate env "Canon_XK130" (JString "a cat") start) =
    Ok (ImageResponse 200 "image/png" png) /\
  forall w',
    fst (try_catch (printGenerated env "Canon_XK130" png)
                   (fun printError => ret tt) w') = Ok tt.
Proof.
  intros env.
  assert (H1 : js_truthy (JString "a cat") = true) by reflexivity.
  assert (H2 : generateImages env (trace start)
                 (js_to_string (JString "a cat")) = inr [Some png])
    by reflexivity.
  split; [exact H1 |]. split; [exact H2 |].
  exact (handleGenerate_returns_image env "Canon_XK130" (JString "a cat")
           start png [] H1 H2).
Defined.

Lemma check_survives_throw_witness :
  let env := env_of down false in
  fst (passBody env watch_one start) = Throw spooler_down /\
  fst (check env watch_one false (mkWatcher true 0) start) =
    Ok (mkWatcher true 1) /\
  events_of (check env watch_one false (mkWatcher true 0)) start =
    events_of (passBody env watch_one) start ++
    [EvOnError (message spooler_down)] ++
    [EvSetTimeout (intervalOf watch_one)].
Proof.
  intros env.
  assert (H : fst (passBody env watch_one start) = Throw spooler_down)
    by (vm_compute; reflexivity).
  split; [exact H |].
  exact (check_survives_throw env watch_one false 0 start spooler_down H).
Defined.

Lemma pass_skips_remaining_candidates_witness :
  let env := env_of flaky false in
  printersToCheck env watch_all start = (Ok ([] ++ front :: [back]), discovered) /\
  checkEach env watch_all [] discovered = (Ok tt, discovered) /\
  checkPrinter env watch_all front discovered = (Throw front_failed, after_front) /\
  checkEach env watch_all ([] ++ front :: [back]) discovered
    = (Throw front_failed, after_front) /\
  pass env watch_all start =
    (Ok tt, mkWorld (trace after_front ++
                     reported watch_all (Throw front_failed))
                    (files after_front)) /\
  forall n,
    check env watch_all false (mkWatcher true n) start =
    (Ok (mkWatcher true (S n)),
     mkWorld (trace after_front ++ reported watch_all (Throw front_failed) ++
              [EvSetTimeout (intervalOf watch_all)]) (files after_front)).
Proof.
  intros env.
  assert (H1 : printersToCheck env watch_all start
               = (Ok ([] ++ front :: [back]), discovered))
    by (vm_compute; reflexivity).
  assert (H2 : checkEach env watch_all [] discovered = (Ok tt, discovered))
    by reflexivity.
  assert (H3 : checkPrinter env watch_all front discovered
               = (Throw front_failed, after_front))
    by (vm_compute; reflexivity).
  split; [exact H1 |]. split; [exact H2 |]. split; [exact H3 |].
  exact (pass_skips_remaining_candidates env watch_all start discovered
           discovered after_front [] [back] front front_failed H1 H2 H3).
Defined.

End Witnesses.

(** ** More on discovery *)

Section Discovery.
Import StringFacts RegexFacts.

(** The lazy star stops in front of the first character its continuation
    accepts: what it consumed has no character of [stop]. *)
Lemma star_lazy_stops (c : cclass) (stop : ascii -> bool) (k : cont) :
  (forall a s', stop a = true -> is_Some (k (String a s'))) ->
  forall (s : string) (cs : captures),
    star_lazy c s k = Some cs ->
    exists s1 s2,
      s = s1 +:+ s2 /\
      all_chars (fun a => accepts c a && negb (stop a)) s1 = true /\
      k s2 = Some cs.
Proof.
  intros Hstop s. induction s as [|a s IH]; intros cs H; simpl in H.
  - destruct (k EmptyString) eqn:Hk; [|discriminate].
    exists EmptyString, EmptyString.
    split; [reflexivity |]. split; [reflexivity | congruence].
  - destruct (k (String a s)) eqn:Hk.
    + exists EmptyString, (String a s).
      split; [reflexivity |]. split; [reflexivity | congruence].
    + destruct (accepts c a) eqn:Ha; [|discriminate].
      destruct (IH _ H) as (s1 & s2 & -> & Hall & Hk2).
      exists (String a s1), s2. split; [reflexivity |]. split; [|exact Hk2].
      cbn [all_chars]. rewrite Ha, Hall.
      destruct (stop a) eqn:Hs; [|reflexivity].
      destruct (Hstop a (s1 +:+ s2) Hs) as [r Hr]. congruence.
Qed.

(** A match of the printer-line pattern at the head of [s]: the name ends
    in front of the first space after its first character, the status runs
    to the end of the line. *)
Lemma printer_line_here (s : string) (cs : captures) :
  match_here re_printer s = Some cs ->
  exists c rest st tail,
    s = "printer " +:+ String c rest +:+ " " +:+ st +:+ tail /\
    cs = [String c rest; st] /\
    accepts CDot c = true /\
    all_chars (fun a => accepts CDot a && negb (Ascii.eqb a space)) rest
      = true /\
    all_chars (accepts CDot) st = true /\
    at_line_end tail.
Proof.
  unfold match_here, re_printer. cbn [run]. intros H.
  apply lit_spec in H as (s1 & -> & H).
  apply one_spec in H as (c & s2 & -> & Hc & H).
  apply (star_lazy_stops CDot (fun a => Ascii.eqb a space)) in H
    as (rest & s3 & -> & Hrest & H).
  - destruct (lit " " s3 _) as [cs'|] eqn:Hl; [|discriminate].
    injection H as <-.
    apply lit_spec in Hl as (s4 & -> & Hl).
    destruct (star_greedy CDot s4 (fun s' => Some [consumed s4 s']))
      as (st & tail & -> & Hst & Hend & Heq); [eauto |].
    rewrite Heq in Hl. injection Hl as <-.
    rewrite consumed_app.
    change (String c (rest +:+ " " +:+ st +:+ tail))
      with (String c rest +:+ " " +:+ st +:+ tail).
    rewrite consumed_app.
    exists c, rest, st, tail. repeat (split; [first [reflexivity | assumption] |]).
    destruct tail as [|a tail]; [exact I |].
    cbn [accepts] in Hend. cbn. now destruct (is_line_terminator a).
  - intros a s' Ha. apply Ascii.eqb_eq in Ha. subst a.
    destruct (star_continue CDot s' (fun s4 => Some [consumed s' s4]))
      as [r Hr]; [eauto |].
    assert (Hl : lit " " (String space s')
                   (fun s3 => star CDot s3 (fun s4 => Some [consumed s3 s4]))
                 = Some r).
    { apply lit_spec. exists s'. split; [reflexivity | exact Hr]. }
    rewrite Hl. eauto.
Qed.

Lemma all_chars_weaken (f g : ascii -> bool) (s : string) :
  (forall a, f a = true -> g a = true) ->
  all_chars f s = true -> all_chars g s = true.
Proof.
  intros Hfg. induction s as [|a s IH]; [reflexivity |]. cbn [all_chars].
  intros [Ha Hs]%andb_true_iff. now rewrite (Hfg a Ha), IH.
Qed.

(** The record of a line has the name and the status the pattern
    captured. *)
Lemma parsePrinterLine_fields (deviceLines : list string)
    (defaultPrinter line : string) (p : Printer) :
  parsePrinterLine deviceLines defaultPrinter line = Some p ->
  exists m,
    js_match re_printer line = Some m /\
    name p = group 1 m /\
    status p = (if truthy (group 2 m) then group 2 m else "unknown") /\
    description p = Some (status p) /\
    isDefault p = String.eqb (name p) defaultPrinter.
Proof.
  unfold parsePrinterLine.
  destruct (js_match re_printer line) as [m|]; [|discriminate].
  destruct (match find _ deviceLines with
            | Some d => js_match re_device d
            | None => None
            end) as [um|]; intros [= <-]; exists m; auto.
Qed.

(** X1. Every printer discovery returns has a non-empty name without line
    terminator and without a space after its first character: the name is
    cut at the first such space of the line. *)
Theorem discovered_name_shape (printerList printerDevices : string)
    (p : Printer) :
  In p (parsePrinters printerList printerDevices) ->
  name p <> EmptyString /\
  inner_space (name p) = false /\
  all_chars (accepts CDot) (name p) = true.
Proof.
  unfold parsePrinters. intros Hin.
  apply list_elem_of_In, list_elem_of_omap in Hin as (line & _ & Hline).
  apply parsePrinterLine_fields in Hline as (m & Hm & -> & _).
  apply js_match_here in Hm as (pre & s' & _ & Hh).
  apply printer_line_here in Hh as (c & rest & st & tail & _ & -> & Hc & Hrest & _).
  cbn [group nth Nat.sub]. split; [discriminate |]. split.
  - cbn [inner_space].
    rewrite (all_chars_weaken
               (fun a => accepts CDot a && negb (Ascii.eqb a space))
               (fun a => negb (Ascii.eqb a space)) rest);
      [reflexivity | | exact Hrest].
    now intros a [_ Ha]%andb_true_iff.
  - cbn [all_chars]. rewrite Hc.
    apply (all_chars_weaken
             (fun a => accepts CDot a && negb (Ascii.eqb a space))
             (accepts CDot) rest); [|exact Hrest].
    now intros a [Ha _]%andb_true_iff.
Qed.

(** X2. The status of a discovered printer is never empty ("unknown" stands
    in when the line gives none), holds no line terminator, and the
    description is the status. *)
Theorem discovered_status_shape (printerList printerDevices : string)
    (p : Printer) :
  In p (parsePrinters printerList printerDevices) ->
  status p <> EmptyString /\
  all_chars (accepts CDot) (status p) = true /\
  description p = Some (status p).
Proof.
  unfold parsePrinters. intros Hin.
  apply list_elem_of_In, list_elem_of_omap in Hin as (line & _ & Hline).
  apply parsePrinterLine_fields in Hline as (m & Hm & _ & -> & Hd & _).
  split; [|split; [|rewrite Hd; reflexivity]].
  - destruct (group 2 m) eqn:Hg; cbn; discriminate.
  - apply js_match_here in Hm as (pre & s' & _ & Hh).
    apply printer_line_here in Hh
      as (c & rest & st & tail & _ & -> & _ & _ & Hst & _).
    cbn [group nth Nat.sub]. destruct st; [reflexivity | exact Hst].
Qed.

(** A match of the default-destination pattern at the head of [s] captures
    the rest of the line. *)
Lemma default_here (s : string) (cs : captures) :
  match_here re_default s = Some cs ->
  exists x tail,
    s = "system default destination: " +:+ x +:+ tail /\
    x <> EmptyString /\ at_line_end tail /\ cs = [x].
Proof.
  unfold match_here, re_default. cbn [run]. intros H.
  apply lit_spec in H as (s1 & -> & H).
  apply one_spec in H as (a & s2 & -> & Ha & H).
  destruct (star_greedy CDot s2 (fun s' => Some [consumed (String a s2) s']))
    as (x & tail & -> & Hx & Hend & Heq); [eauto |].
  rewrite Heq in H. injection H as <-.
  change (String a (x +:+ tail)) with (String a x +:+ tail).
  rewrite consumed_app. exists (String a x), tail.
  split; [reflexivity |]. split; [discriminate |]. split; [|reflexivity].
  destruct tail as [|b tail]; [exact I |].
  cbn [accepts] in Hend. cbn. now destruct (is_line_terminator b).
Qed.

(** X3. A discovered printer is the default only when the printer list has
    a line "system default destination: " that ends with its name; without
    such a line no printer is the default. *)
Theorem default_printer_is_named_by_marker (printerList printerDevices : string)
    (p : Printer) :
  In p (parsePrinters printerList printerDevices) ->
  isDefault p = true ->
  exists pre tail,
    printerList =
      pre +:+ "system default destination: " +:+ name p +:+ tail /\
    at_line_end tail.
Proof.
  intros Hin Hdef.
  destruct (discovered_name_shape _ _ _ Hin) as [Hname _].
  unfold parsePrinters in Hin.
  apply list_elem_of_In, list_elem_of_omap in Hin as (line & _ & Hline).
  apply parsePrinterLine_fields in Hline as (m & _ & _ & _ & _ & Hd).
  rewrite Hdef in Hd. symmetry in Hd. apply String.eqb_eq in Hd.
  destruct (js_match re_default printerList) as [dm|] eqn:Hm;
    [|congruence].
  apply js_match_here in Hm as (pre & s' & -> & Hh).
  apply default_here in Hh as (x & tail & -> & _ & Hend & ->).
  cbn [group nth Nat.sub] in Hd. subst x. eauto.
Qed.

End Discovery.

(** ** Commands: discovery, enabling, resuming *)

Section Commands.
Variable env : Env.

(** Running a command, by whether it exits with status 0. *)
Lemma execAsync_cases (cmd : string) (w : World) :
  let w' := mkWorld (trace w ++ [EvExec cmd]) (files w) in
  (succeeds env (trace w) cmd = true /\
   exists err,
     execAsync env cmd w = (Ok (output_of env (trace w) cmd, err), w')) \/
  (succeeds env (trace w) cmd = false /\
   exists e, execAsync env cmd w = (Throw e, w')).
Proof.
  unfold execAsync, succeeds, output_of.
  destruct (spawn env (trace w) cmd) as [e|st out err]; cbn zeta.
  - right. eauto.
  - destruct (st =? 0)%Z; [left | right]; eauto.
Qed.

Lemma events_of_here {A} (c : M A) (w : World) (r : Result A)
    (evs : list Event) (fs : gmap string Buffer) :
  c w = (r, mkWorld (trace w ++ evs) fs) -> events_of c w = evs.
Proof. intros H. apply events_of_app. now rewrite H. Qed.

(** X4. Discovery returns exactly when both queries exit with status 0, and
    then it returns what their outputs parse to, the empty list for an empty
    printer list; when the first query fails the second is not run; every
    failure is an [Error] "Failed to get printers: ..."; no file changes. *)
Theorem getAllPrinters_outcome (w : World) :
  let first := succeeds env (trace w) "lpstat -p -d" in
  let second :=
    succeeds env (trace w ++ [EvExec "lpstat -p -d"]) "lpstat -v" in
  (if first && second
   then fst (getAllPrinters env w) =
        Ok (parsePrinters
              (output_of env (trace w) "lpstat -p -d")
              (output_of env (trace w ++ [EvExec "lpstat -p -d"]) "lpstat -v"))
   else exists e, fst (getAllPrinters env w) = Throw e /\
                  error_with_prefix "Failed to get printers: " e) /\
  commands (events_of (getAllPrinters env) w) =
    (if first then ["lpstat -p -d"; "lpstat -v"] else ["lpstat -p -d"]) /\
  files (snd (getAllPrinters env w)) = files w /\
  (forall printerDevices, parsePrinters EmptyString printerDevices = []).
Proof.
  intros first second.
  assert (Hrun :
    getAllPrinters env w =
    (match first, second with
     | true, true =>
         Ok (parsePrinters
               (output_of env (trace w) "lpstat -p -d")
               (output_of env (trace w ++ [EvExec "lpstat -p -d"]) "lpstat -v"))
     | _, _ => fst (getAllPrinters env w)
     end,
     mkWorld (trace w ++ (if first then [EvExec "lpstat -p -d"; EvExec "lpstat -v"]
                          else [EvExec "lpstat -p -d"])) (files w)) /\
    (first && second = false ->
     exists e, fst (getAllPrinters env w) = Throw e /\
               error_with_prefix "Failed to get printers: " e)).
  { unfold getAllPrinters, try_catch, bind, ret, throw.
    destruct (execAsync_cases "lpstat -p -d" w) as [[H1 [err E1]]|[H1 [e E1]]];
      fold first in H1; rewrite E1, H1.
    - destruct (execAsync_cases "lpstat -v"
                  (mkWorld (trace w ++ [EvExec "lpstat -p -d"]) (files w)))
        as [[H2 [err2 E2]]|[H2 [e E2]]];
        cbn [trace files] in H2, E2; fold second in H2; rewrite E2, H2;
        cbn [fst trace files]; rewrite <- (assoc_L (++)).
      + split; [reflexivity | discriminate].
      + split; [reflexivity |]. intros _. eexists. split; [reflexivity |].
        now eexists.
    - cbn [fst]. split; [reflexivity |]. intros _. eexists.
      split; [reflexivity |]. now eexists. }
  destruct Hrun as [Hrun Hfail].
  split; [|split; [|split]].
  - destruct (first && second) eqn:Hb; [|now apply Hfail].
    apply andb_true_iff in Hb as [H1 H2]. rewrite Hrun, H1, H2. reflexivity.
  - rewrite (events_of_here _ _ _ _ _ Hrun). now destruct first.
  - now rewrite Hrun.
  - reflexivity.
Qed.

(** X5. [enablePrinter] runs the resume command and then the accept
    command; it returns exactly when both exit with status 0; when the
    resume command fails the accept command is not run; every failure is an
    [Error] "Failed to enable printer: ..."; no file changes. *)
Theorem enablePrinter_outcome (printerName : string) (w : World) :
  let first := succeeds env (trace w) (enableCommand printerName) in
  let second :=
    succeeds env (trace w ++ [EvExec (enableCommand printerName)])
             (acceptCommand printerName) in
  (if first && second
   then fst (enablePrinter env printerName w) =
        Ok ("Printer " +:+ quoted printerName +:+
            " has been enabled and is now accepting jobs")
   else exists e, fst (enablePrinter env printerName w) = Throw e /\
                  error_with_prefix "Failed to enable printer: " e) /\
  events_of (enablePrinter env printerName) w =
    (if first
     then [EvExec (enableCommand printerName);
           EvExec (acceptCommand printerName)]
     else [EvExec (enableCommand printerName)]) /\
  files (snd (enablePrinter env printerName w)) = files w.
Proof.
  intros first second.
  assert (Hrun :
    enablePrinter env printerName w =
    (fst (enablePrinter env printerName w),
     mkWorld (trace w ++
              (if first
               then [EvExec (enableCommand printerName);
                     EvExec (acceptCommand printerName)]
               else [EvExec (enableCommand printerName)])) (files w)) /\
    (first && second = true ->
     fst (enablePrinter env printerName w) =
       Ok ("Printer " +:+ quoted printerName +:+
           " has been enabled and is now accepting jobs")) /\
    (first && second = false ->
     exists e, fst (enablePrinter env printerName w) = Throw e /\
               error_with_prefix "Failed to enable printer: " e)).
  { unfold enablePrinter, try_catch, bind, ret, throw.
    fold (enableCommand printerName). fold (acceptCommand printerName).
    destruct (execAsync_cases (enableCommand printerName) w)
      as [[H1 [err E1]]|[H1 [e E1]]]; fold first in H1; rewrite E1, H1.
    - destruct (execAsync_cases (acceptCommand printerName)
                  (mkWorld (trace w ++ [EvExec (enableCommand printerName)])
                           (files w)))
        as [[H2 [err2 E2]]|[H2 [e E2]]];
        cbn [trace files] in H2, E2; fold second in H2; rewrite E2, H2;
        cbn [fst trace files]; rewrite <- (assoc_L (++)).
      + split; [reflexivity |]. split; [reflexivity | discriminate].
      + split; [reflexivity |]. split; [discriminate |].
        intros _. eexists. split; [reflexivity |]. now eexists.
    - cbn [fst]. split; [reflexivity |]. split; [discriminate |].
      intros _. eexists. split; [reflexivity |]. now eexists. }
  destruct Hrun as (Hrun & Hok & Hfail).
  split; [destruct (first && second); auto |]. split.
  - exact (events_of_here _ _ _ _ _ Hrun).
  - now rewrite Hrun.
Qed.

End Commands.

(** ** More on resuming and on the watcher *)

Section Resuming.
Variable env : Env.

Lemma isPrinterEnabled_world (printerName : string) (w : World) :
  snd (isPrinterEnabled env printerName w) = after_status printerName w.
Proof.
  unfold isPrinterEnabled, try_catch, bind, ret, throw.
  pose proof (execAsync_world env (statusCommand printerName) w) as Hw.
  destruct (execAsync env (statusCommand printerName) w) as [[out|e] w1];
    exact Hw.
Qed.

Lemma enablePrinter_world (printerName : string) (w : World) :
  exists evs,
    snd (enablePrinter env printerName w) = mkWorld (trace w ++ evs) (files w) /\
    evs = events_of (enablePrinter env printerName) w.
Proof.
  destruct (enablePrinter_outcome env printerName w) as (_ & Hev & Hf).
  pose proof (grows_enablePrinter env printerName w) as [evs Ht].
  exists evs. split.
  - destruct (snd (enablePrinter env printerName w)) as [t f].
    cbn [trace files] in *. now subst.
  - symmetry. now apply events_of_app.
Qed.

(** X6. [checkAndResumePrinter] always runs the status query first and runs
    the enable commands only when the status says disabled and [autoEnable]
    is set; a failure of the status query passes through as it is; the
    [wasEnabled] of the result is the status found, also after the printer
    was enabled. *)
Theorem checkAndResumePrinter_commands (printerName : string)
    (autoEnable : bool) (w : World) :
  let call := checkAndResumePrinter env printerName autoEnable in
  let found := fst (isPrinterEnabled env printerName w) in
  let enabling :=
    match found with Ok false => autoEnable | _ => false end in
  events_of call w =
    EvExec (statusCommand printerName) ::
    (if enabling
     then events_of (enablePrinter env printerName)
                    (after_status printerName w)
     else []) /\
  match fst (call w), found with
  | Ok r, Ok b => wasEnabled r = b
  | Throw e, Throw e' => e = e'
  | Throw e, Ok b => b = false /\ autoEnable = true
  | Ok _, Throw _ => False
  end.
Proof.
  intros call found enabling.
  unfold events_of at 1. unfold call, checkAndResumePrinter, bind, ret.
  cbn beta.
  pose proof (isPrinterEnabled_world printerName w) as Hw.
  subst enabling found.
  destruct (isPrinterEnabled env printerName w) as [[[|]|e] w1];
    cbn [fst snd] in *; subst w1.
  - split; [|reflexivity]. apply drop_app_length.
  - destruct autoEnable.
    + destruct (enablePrinter_world printerName (after_status printerName w))
        as (evs & Hsnd & <-).
      destruct (enablePrinter env printerName (after_status printerName w))
        as [[msg|e] w2]; cbn [fst snd] in *; subst w2;
        (split; [cbn [trace after_status]; rewrite <- (assoc_L (++));
                 apply drop_app_length | auto]).
    + split; [|reflexivity]. apply drop_app_length.
  - split; [|reflexivity]. apply drop_app_length.
Qed.

(** X17 (the loop body of the watcher). [onResume] is called only for the
    printer at hand, and only after its status text said disabled or paused
    and its resume and accept commands both exited with status 0. *)
Theorem onResume_only_after_enable (options : WatchOptions)
    (printer : Printer) (w : World) (resumed : string) :
  In (EvOnResume resumed) (events_of (checkPrinter env options printer) w) ->
  resumed = name printer /\
  onResume options = true /\
  succeeds env (trace w) (statusCommand (name printer)) = true /\
  statusIsDisabled
    (output_of env (trace w) (statusCommand (name printer))) = true /\
  succeeds env (trace (after_status (name printer) w))
    (enableCommand (name printer)) = true /\
  succeeds env (trace (after_status (name printer) w) ++
                [EvExec (enableCommand (name printer))])
    (acceptCommand (name printer)) = true.
Proof.
  unfold events_of, checkPrinter, bind, ret. cbn beta.
  pose proof (isPrinterEnabled_world (name printer) w) as Hw.
  pose proof (isPrinterEnabled_run env (name printer) w) as Hrun.
  unfold succeeds, output_of.
  destruct (isPrinterEnabled env (name printer) w) as [[[|]|e] w1];
    cbn [fst snd negb] in *; subst w1.
  - cbn [trace after_status]. rewrite drop_app_length. intros [[=]|[]].
  - destruct (spawn env (trace w) (statusCommand (name printer)))
      as [e|st out err]; [discriminate |].
    destruct (st =? 0)%Z; [|discriminate].
    injection Hrun as Hrun. symmetry in Hrun. apply negb_false_iff in Hrun.
    destruct (enablePrinter_outcome env (name printer)
                (after_status (name printer) w)) as (Hres & Hev & _).
    destruct (enablePrinter_world (name printer)
                (after_status (name printer) w)) as (evs & Hsnd & Hevs).
    unfold succeeds in Hres, Hev.
    destruct (match spawn env (trace (after_status (name printer) w))
                      (enableCommand (name printer)) with
              | SpawnFailed _ => false
              | Exited status _ _ => (status =? 0)%Z
              end) eqn:H1;
      destruct (match spawn env (trace (after_status (name printer) w) ++
                                 [EvExec (enableCommand (name printer))])
                        (acceptCommand (name printer)) with
                | SpawnFailed _ => false
                | Exited status _ _ => (status =? 0)%Z
                end) eqn:H2;
      cbn [andb] in Hres;
      destruct (enablePrinter env (name printer)
                  (after_status (name printer) w)) as [[msg|e] w2] eqn:He;
      cbn [fst snd] in *; subst w2;
      try (destruct Hres as (? & [=] & _)); try discriminate;
      try destruct (onResume options) eqn:Hon;
      cbn [snd trace emit ret after_status];
      rewrite <- ?(assoc_L (++)), drop_app_length, Hevs, Hev; cbn;
      intuition (try discriminate).
    match goal with
    | Heq : EvOnResume _ = EvOnResume _ |- _ => now injection Heq
    end.
  - cbn [trace after_status]. rewrite drop_app_length. intros [[=]|[]].
Qed.


End Resuming.

Section Timers.
Variable env : Env.
Variable options : WatchOptions.

Lemma check_total (stopped_in_flight : bool) (ws : Watcher) (w : World) :
  exists ws' w',
    check env options stopped_in_flight ws w = (Ok ws', w') /\
    timers ws' <= S (timers ws) /\
    (isRunning ws' = true -> isRunning ws = true).
Proof.
  destruct ws as [[|] n].
  - rewrite check_run. do 2 eexists. split; [reflexivity |].
    cbn [timers isRunning]. split; [destruct stopped_in_flight; lia | auto].
  - rewrite check_stopped. do 2 eexists. split; [reflexivity |].
    cbn [timers]. split; [lia | auto].
Qed.

Lemma step_total (a : Action) (ws : Watcher) (w : World) :
  exists ws' w',
    step env options a ws w = (Ok ws', w') /\ timers ws' <= timers ws.
Proof.
  destruct a as [b|]; cbn [step].
  - destruct ws as [r [|n]]; cbn [timers isRunning].
    + do 2 eexists. split; [reflexivity | cbn; lia].
    + destruct (check_total b (mkWatcher r n) w) as (ws' & w' & -> & Hle & _).
      exists ws', w'. auto.
  - do 2 eexists. split; [reflexivity | cbn; lia].
Qed.

Lemma steps_total (actions : list Action) (ws : Watcher) (w : World) :
  exists ws' w',
    steps env options actions ws w = (Ok ws', w') /\ timers ws' <= timers ws.
Proof.
  revert ws w. induction actions as [|a rest IH]; intros ws w; cbn [steps].
  - do 2 eexists. split; [reflexivity | lia].
  - unfold bind. destruct (step_total a ws w) as (ws1 & w1 & -> & H1).
    destruct (IH ws1 w1) as (ws2 & w2 & -> & H2).
    exists ws2, w2. split; [reflexivity | lia].
Qed.

(** X18. However the timeouts fire and whenever stop is called, a started
    watcher never throws and never has more than one timeout pending: a
    pass sets the next timeout only when it ends, so passes do not pile
    up. *)
Theorem watcher_has_at_most_one_timer (stopped_in_flight : bool)
    (actions : list Action) (w : World) :
  exists ws w',
    (ws0 <- watchAndResumePrinters env options stopped_in_flight ;;
     steps env options actions ws0) w = (Ok ws, w') /\
    timers ws <= 1.
Proof.
  unfold bind, watchAndResumePrinters. rewrite check_run.
  destruct (steps_total actions
              (mkWatcher (negb stopped_in_flight)
                         (if stopped_in_flight then 0 else 1))
              (mkWorld (trace (snd (pass env options w)) ++
                        rescheduled options stopped_in_flight)
                       (files (snd (pass env options w)))))
    as (ws & w' & -> & Hle).
  exists ws, w'. split; [reflexivity |].
  cbn [timers] in Hle. destruct stopped_in_flight; lia.
Qed.

End Timers.

(** ** More on the job submitter *)

Section SubmitterMore.
Import StringFacts.
Variable env : Env.


Lemma join_cons (sep x : string) (l : list string) :
  l <> [] -> join sep (x :: l) = x +:+ sep +:+ join sep l.
Proof. destruct l; [congruence | reflexivity]. Qed.

Lemma join_snoc (sep : string) (l : list string) (x : string) :
  l <> [] -> join sep (l ++ [x]) = join sep l +:+ sep +:+ x.
Proof.
  induction l as [|y l IH]; [congruence |]. intros _.
  destruct l as [|z l]; [reflexivity |].
  change ((y :: z :: l) ++ [x]) with (y :: ((z :: l) ++ [x])).
  rewrite join_cons by (destruct l; discriminate).
  rewrite IH by discriminate.
  rewrite (join_cons sep y (z :: l)) by discriminate.
  now rewrite !app_assoc.
Qed.

Lemma buildPrintCommand_args (printerName imagePath : string)
    (options : PrintOptions) :
  buildPrintCommand printerName imagePath options =
  join " " (["lp"; "-d"; quoted printerName] ++ optionArgs options ++
            [quoted imagePath]).
Proof.
  unfold buildPrintCommand, optionArgs. now rewrite <- !(assoc_L (++)).
Qed.

(** X9. Whatever the options, a command line is [lp -d], the quoted printer
    name, the options, and the quoted file last; the options part does not
    depend on the printer or the file. *)
Theorem buildPrintCommand_shape (options : PrintOptions) :
  exists middle,
    forall printerName imagePath,
      buildPrintCommand printerName imagePath options =
      "lp -d " +:+ quoted printerName +:+ middle +:+ " " +:+ quoted imagePath.
Proof.
  exists (match optionArgs options with
          | [] => EmptyString
          | args => " " +:+ join " " args
          end).
  intros printerName imagePath. rewrite buildPrintCommand_args.
  destruct (optionArgs options) as [|a args] eqn:Hargs.
  - reflexivity.
  - rewrite (assoc_L (++)), join_snoc by discriminate.
    change (["lp"; "-d"; quoted printerName] ++ a :: args)
      with ("lp" :: "-d" :: quoted printerName :: a :: args).
    rewrite !join_cons by discriminate.
    now rewrite !app_assoc.
Qed.

(** X8. A copy count of one or less and an empty media size leave no trace
    in the command line: it is the one built without them. *)
Theorem buildPrintCommand_ignores_trivial_options
    (printerName imagePath : string) (options : PrintOptions) :
  (forall n, copies options = Some n -> (n <= 1)%Z) ->
  (forall m, media options = Some m -> m = EmptyString) ->
  buildPrintCommand printerName imagePath options =
  buildPrintCommand printerName imagePath
    (without_media (without_copies options)).
Proof.
  intros Hc Hm. rewrite !buildPrintCommand_args. do 3 f_equal.
  unfold optionArgs, without_media, without_copies.
  cbn [copies media grayscale fitToPage cupOptions].
  destruct (copies options) as [n|].
  - specialize (Hc n eq_refl).
    destruct (Z.ltb_spec 1 n); [lia |].
    destruct (media options) as [m|]; [|reflexivity].
    now rewrite (Hm m eq_refl).
  - destruct (media options) as [m|]; [|reflexivity].
    now rewrite (Hm m eq_refl).
Qed.

(** A call is its [try]/[catch] followed by the [finally] block, which
    cannot change the outcome. *)
Lemma printImage_split (printerName : string) (src : ImageSource)
    (options : PrintOptions) (w : World) :
  printImage env printerName src options w =
  (fst (printAttempt env printerName src options w),
   snd (cleanupTemp env
          match src with
          | FromPath _ => None
          | FromBuffer _ => Some (tempFilePathOf env w)
          end
          (snd (printAttempt env printerName src options w)))).
Proof.
  unfold printImage, try_finally, printAttempt.
  destruct (try_catch _ _ w) as [r w1]. cbn [fst snd].
  pose proof (cleanupTemp_returns env
                match src with
                | FromPath _ => None
                | FromBuffer _ => Some (tempFilePathOf env w)
                end w1) as Hc.
  destruct (cleanupTemp env _ w1) as [[[]|e] w2]; [reflexivity |].
  discriminate.
Qed.

(** X10. A call with a file path creates and deletes nothing: the files
    are the same afterwards and the only things that happened are
    commands. *)
Theorem printImage_path_leaves_files (printerName imagePath : string)
    (options : PrintOptions) (w : World) :
  only_runs w (snd (printImage env printerName (FromPath imagePath) options w)).
Proof.
  rewrite printImage_split. cbn [cleanupTemp ret snd].
  unfold printAttempt, try_catch, bind, prepareImage, bind, ret, throw.
  pose proof (validateImageFile_world env imagePath w) as Hv.
  destruct (validateImageFile env imagePath w) as [[[]|e] wv];
    cbn [snd] in *; subst wv; [|apply only_runs_refl].
  pose proof (submitImage_runs env printerName imagePath options w) as Hs.
  destruct (submitImage env printerName imagePath options w) as [[j|e] ws];
    exact Hs.
Qed.

(** X11. Every failure of [printImage] is an [Error] whose message begins
    with "Failed to print: ". *)
Theorem printImage_failure_prefix (printerName : string) (src : ImageSource)
    (options : PrintOptions) (w : World) (e : Exn) :
  fst (printImage env printerName src options w) = Throw e ->
  error_with_prefix "Failed to print: " e.
Proof.
  rewrite printImage_split. cbn [fst].
  unfold printAttempt, try_catch, throw.
  destruct (bind _ _ w) as [[j|e'] w1]; cbn [fst]; [discriminate |].
  intros [= <-]. now eexists.
Qed.

Lemma prepareImage_ok (src : ImageSource) (w w1 : World) (imagePath : string) :
  prepareImage env (tempFilePathOf env w) src w = (Ok imagePath, w1) ->
  imagePath = submittedPath env w src.
Proof.
  destruct src as [p|data]; unfold prepareImage, bind, ret; cbn [submittedPath].
  - destruct (validateImageFile env p w) as [[[]|e] wv]; congruence.
  - destruct (fs_writeFile env _ data w) as [[[]|e] wv]; congruence.
Qed.

(** X12. A call that returns a job id ran exactly three commands: the two
    discovery queries and then the submit command for the named printer and
    the file at hand; the id is extracted from what that command printed. *)
Theorem printImage_success_commands (printerName : string)
    (src : ImageSource) (options : PrintOptions) (w : World) (jobId : string) :
  fst (printImage env printerName src options w) = Ok jobId ->
  commands (events_of (printImage env printerName src options) w) =
    ["lpstat -p -d"; "lpstat -v";
     buildPrintCommand printerName (submittedPath env w src) options] /\
  exists history,
    succeeds env history
      (buildPrintCommand printerName (submittedPath env w src) options)
      = true /\
    jobId = extractJobId
              (output_of env history
                 (buildPrintCommand printerName (submittedPath env w src)
                    options)).
Proof.
  intros Hok.
  destruct (prepareImage_trace env (tempFilePathOf env w) src w)
    as (e1 & He1 & Hc1).
  rewrite printImage_split in Hok. cbn [fst] in Hok.
  set (tmp := match src with
              | FromPath _ => None
              | FromBuffer _ => Some (tempFilePathOf env w)
              end).
  assert (Hev : forall evs,
             trace (snd (printAttempt env printerName src options w))
             = trace w ++ evs ->
             exists e3,
               events_of (printImage env printerName src options) w
               = evs ++ e3 /\ commands e3 = []).
  { intros evs Hevs.
    destruct (cleanupTemp_trace env tmp
                (snd (printAttempt env printerName src options w)))
      as (e3 & He3 & Hc3).
    exists e3. split; [|exact Hc3]. apply events_of_app.
    rewrite printImage_split. cbn [snd]. fold tmp.
    now rewrite He3, Hevs, <- (assoc_L (++)). }
  revert Hok Hev. unfold printAttempt, try_catch, bind, throw.
  destruct (prepareImage env (tempFilePathOf env w) src w)
    as [[imagePath|e] w1] eqn:Hprep; [|discriminate].
  apply prepareImage_ok in Hprep as ->. cbn [snd] in He1.
  unfold submitImage, bind, ret, throw.
  destruct (getAllPrinters env w1) as [[ps|e] w2] eqn:Hget; [|discriminate].
  apply getAllPrinters_ok in Hget as [_ ->].
  destruct (find _ ps) as [p|]; [|discriminate].
  set (cmd := buildPrintCommand printerName (submittedPath env w src) options).
  destruct (execAsync_cases env cmd
              (mkWorld (trace w1 ++ [EvExec "lpstat -p -d"; EvExec "lpstat -v"])
                       (files w1)))
    as [[Hs [err E]]|[Hs [e E]]]; rewrite E; cbn [fst snd trace files];
    [|discriminate].
  intros [= <-] Hev.
  destruct (Hev (e1 ++ [EvExec "lpstat -p -d"; EvExec "lpstat -v"] ++
                 [EvExec cmd])) as (e3 & -> & Hc3).
  { rewrite He1. now rewrite <- !(assoc_L (++)). }
  split.
  - rewrite !commands_app, Hc1, Hc3. reflexivity.
  - eexists. split; [exact Hs | reflexivity].
Qed.

(** X13. When the input cannot be made ready, a path that does not
    validate or a buffer that cannot be written, the call fails without
    running any command: no discovery, no submit. *)
Theorem printImage_unready_input_runs_nothing (printerName : string)
    (src : ImageSource) (options : PrintOptions) (w : World) (e : Exn) :
  fst (prepareImage env (tempFilePathOf env w) src w) = Throw e ->
  fst (printImage env printerName src options w) =
    Throw (Error ("Failed to print: " +:+ message e)) /\
  commands (events_of (printImage env printerName src options) w) = [].
Proof.
  intros Hprep.
  destruct (prepareImage_trace env (tempFilePathOf env w) src w)
    as (e1 & He1 & Hc1).
  set (tmp := match src with
              | FromPath _ => None
              | FromBuffer _ => Some (tempFilePathOf env w)
              end).
  assert (Hatt : printAttempt env printerName src options w =
                 (Throw (Error ("Failed to print: " +:+ message e)),
                  snd (prepareImage env (tempFilePathOf env w) src w))).
  { unfold printAttempt, try_catch, bind, throw.
    destruct (prepareImage env (tempFilePathOf env w) src w) as [[ip|e'] w1];
      cbn [fst snd] in *; [discriminate | congruence]. }
  rewrite printImage_split, Hatt. cbn [fst snd]. split; [reflexivity |].
  destruct (cleanupTemp_trace env tmp
              (snd (prepareImage env (tempFilePathOf env w) src w)))
    as (e3 & He3 & Hc3).
  rewrite (events_of_app _ _ (e1 ++ e3)).
  - now rewrite commands_app, Hc1, Hc3.
  - rewrite printImage_split, Hatt. cbn [snd]. fold tmp.
    now rewrite He3, He1, <- (assoc_L (++)).
Qed.

End SubmitterMore.

(** ** More on the orchestrator *)

Section OrchestratorMore.
Import StringFacts RegexFacts.
Variable env : Env.

(** X14. With no USB printer in the discovery result, [printToUSB] fails
    with "No USB printers found" right after discovery: no file is written
    and no job is submitted. *)
Theorem printToUSB_without_usb_printer (src : ImageSource)
    (options : PrintOptions) (w : World) (discovered : list Printer) :
  fst (getAllPrinters env w) = Ok discovered ->
  (forall p, In p discovered -> isUSB p = false) ->
  printToUSB env src options w =
    (Throw (Error "No USB printers found"), snd (getAllPrinters env w)).
Proof.
  intros Hget Hnone. unfold printToUSB, getUSBPrinters, bind, ret, throw.
  destruct (getAllPrinters env w) as [[ps|e] w1]; cbn [fst snd] in *;
    [|discriminate].
  injection Hget as ->.
  destruct (List.filter (fun p => isUSB p) discovered) as [|p rest] eqn:Hf;
    [reflexivity |].
  assert (Hin : In p (List.filter (fun p => isUSB p) discovered))
    by (rewrite Hf; now left).
  apply filter_In in Hin as [Hin Hp]. rewrite (Hnone p Hin) in Hp.
  discriminate.
Qed.

(** X15. When [printToUSB] returns, the printer it names is a USB printer
    of the discovery result, and a default one if any USB printer is the
    default. *)
Theorem printToUSB_target (src : ImageSource) (options : PrintOptions)
    (w : World) (printerName jobId : string) :
  fst (printToUSB env src options w) = Ok (printerName, jobId) ->
  exists discovered p,
    fst (getAllPrinters env w) = Ok discovered /\
    In p discovered /\ isUSB p = true /\ name p = printerName /\
    forall q, In q discovered -> isUSB q = true -> isDefault q = true ->
              isDefault p = true.
Proof.
  unfold printToUSB, getUSBPrinters, bind, ret, throw.
  destruct (getAllPrinters env w) as [[ps|e] w1]; cbn [fst];
    [|discriminate].
  destruct (List.filter (fun p => isUSB p) ps) as [|first rest] eqn:Hf;
    [discriminate |].
  set (usb := first :: rest) in *.
  destruct (find (fun p => isDefault p) usb) as [d|] eqn:Hd.
  - destruct (printImage env (name d) src options w1) as [[j|e] w2];
      [|discriminate].
    intros [= <- <-]. apply find_some in Hd as [Hin Hdef].
    rewrite <- Hf in Hin. apply filter_In in Hin as [Hin Husb].
    exists ps, d. auto.
  - destruct (printImage env (name first) src options w1) as [[j|e] w2];
      [|discriminate].
    intros [= <- <-].
    assert (Hin : In first (List.filter (fun p => isUSB p) ps))
      by (rewrite Hf; now left).
    apply filter_In in Hin as [Hin Husb].
    exists ps, first. repeat (split; [first [reflexivity | assumption] |]).
    intros q Hq Hqusb Hqdef.
    assert (Hq' : In q usb).
    { rewrite <- Hf. apply filter_In. auto. }
    pose proof (find_none _ _ Hd q Hq') as Hno. cbn in Hno. congruence.
Qed.


(** X20. Without an image, for a falsy prompt or a generation that throws
    or yields nothing, the handler answers with an error, 400 or 500, and
    does nothing else: no discovery, no file, no job. *)
Theorem handleGenerate_without_image (PRINTER_NAME : string) (prompt : JsVal)
    (w : World) :
  (js_truthy prompt = true ->
   forall buffer,
     fst (generateImage env (js_to_string prompt) w) <> Ok (Some buffer)) ->
  snd (handleGenerate env PRINTER_NAME prompt w) = w /\
  exists status error,
    fst (handleGenerate env PRINTER_NAME prompt w) =
      Ok (JsonError status error) /\
    (status = 400%Z /\ js_truthy prompt = false \/
     status = 500%Z /\ js_truthy prompt = true).
Proof.
  intros Hno. unfold handleGenerate.
  destruct (js_truthy prompt) eqn:Ht; cbn [negb].
  - specialize (Hno eq_refl). unfold try_catch, bind, ret.
    unfold generateImage in *.
    destruct (generateImages env (trace w) (js_to_string prompt))
      as [e|[|[buffer|] rest]]; cbn [fst snd] in *.
    + split; [reflexivity |]. do 2 eexists. split; [reflexivity | auto].
    + split; [reflexivity |]. do 2 eexists. split; [reflexivity | auto].
    + now destruct (Hno buffer).
    + split; [reflexivity |]. do 2 eexists. split; [reflexivity | auto].
  - split; [reflexivity |]. do 2 eexists. split; [reflexivity | auto].
Qed.

(** A name with a space after its first character is the name of no
    discovered printer. *)
Lemma inner_space_not_found (P : string) (w : World) (ps : list Printer)
    (w' : World) :
  inner_space P = true ->
  getAllPrinters env w = (Ok ps, w') ->
  find (fun p => String.eqb (name p) P) ps = None.
Proof.
  intros Hsp Hget.
  apply getAllPrinters_ok in Hget as [(l & d & ->) _].
  destruct (find _ (parsePrinters l d)) as [p|] eqn:Hf; [|reflexivity].
  apply find_some in Hf as [Hin Heq]. apply String.eqb_eq in Heq.
  destruct (discovered_name_shape l d p Hin) as (_ & Hno & _).
  congruence.
Qed.

(** X21. A configured printer name with a space after its first character,
    as the built-in default "Canon XK130 series 3" has, is never among the
    discovered printers: the handler never submits to it directly and
    always takes the USB fallback. *)
Theorem spaced_name_always_falls_back (PRINTER_NAME : string)
    (buffer : Buffer) (w : World) :
  inner_space PRINTER_NAME = true ->
  printGenerated env PRINTER_NAME buffer w =
  (getAllPrinters env ;;;
   printToUSB env (FromBuffer buffer) (mkOptions (Some 1%Z) None false true []) ;;;
   ret tt) w.
Proof.
  intros Hsp. unfold printGenerated, bind.
  destruct (getAllPrinters env w) as [[ps|e] w1] eqn:Hget; [|reflexivity].
  now rewrite (inner_space_not_found _ _ _ _ Hsp Hget).
Qed.

(** X22. Started as [server.ts] starts it with such a name, the watcher
    finds no candidate: a pass is the discovery and nothing more, no status
    check and no enable, whatever state the printers are in. *)
Theorem spaced_name_watches_nothing (PRINTER_NAME : string) (w : World) :
  inner_space PRINTER_NAME = true ->
  passBody env (serverWatchOptions PRINTER_NAME) w =
  (getAllPrinters env ;;; ret tt) w.
Proof.
  intros Hsp. unfold passBody, serverWatchOptions, printersToCheck.
  assert (Ht : truthy PRINTER_NAME = true).
  { destruct PRINTER_NAME; [discriminate | reflexivity]. }
  rewrite Ht. cbn [printerNames]. unfold bind, ret.
  destruct (getAllPrinters env w) as [[ps|e] w1] eqn:Hget; [|reflexivity].
  assert (Hnone : List.filter
                    (fun p => existsb (String.eqb (name p)) [PRINTER_NAME]) ps
                  = []).
  { pose proof (inner_space_not_found _ _ _ _ Hsp Hget) as Hf.
    clear Hget. induction ps as [|p ps IH]; [reflexivity |].
    cbn [find] in Hf. cbn [List.filter existsb].
    destruct (String.eqb (name p) PRINTER_NAME); [discriminate |].
    cbn [orb]. now apply IH. }
  now rewrite Hnone.
Qed.

Lemma split_pieces (sep : ascii) (f : ascii -> bool) (s x : string) :
  all_chars f s = true -> In x (split sep s) ->
  all_chars f x = true /\
  all_chars (fun c => negb (Ascii.eqb c sep)) x = true.
Proof.
  revert x. induction s as [|c s IH]; intros x Hall Hin.
  - destruct Hin as [<-|[]]. auto.
  - cbn [all_chars] in Hall. apply andb_true_iff in Hall as [Hc Hall].
    cbn [split] in Hin. destruct (Ascii.eqb c sep) eqn:Hsep.
    + destruct Hin as [<-|Hin]; [auto | now apply IH].
    + destruct (split sep s) as [|l ls] eqn:Hs.
      * destruct Hin as [<-|[]]. cbn [all_chars]. now rewrite Hc, Hsep.
      * destruct Hin as [<-|Hin].
        -- destruct (IH l Hall (or_introl eq_refl)) as [H1 H2].
           cbn [all_chars]. now rewrite Hc, Hsep, H1, H2.
        -- apply IH; [exact Hall | now right].
Qed.

(** X23. The media sizes returned for a printer are never empty, never the
    lone marker "*", and hold neither a space nor a line terminator: they
    are the words of one line. *)
Theorem getAvailableMediaSizes_words (printerName : string) (w : World)
    (sizes : list string) (size : string) :
  fst (getAvailableMediaSizes env printerName w) = Ok sizes ->
  In size sizes ->
  size <> EmptyString /\ size <> "*" /\
  all_chars (fun c => negb (Ascii.eqb c space)) size = true /\
  all_chars (accepts CDot) size = true.
Proof.
  unfold getAvailableMediaSizes, try_catch, bind, ret, throw.
  destruct (getPrinterInfo env printerName w) as [[info|e] w1];
    [|discriminate].
  destruct (js_match re_media info) as [m|] eqn:Hm.
  - cbn [fst]. intros [= <-] [Hin Hkeep]%filter_In.
    apply andb_true_iff in Hkeep as [Hne Hstar].
    split; [now destruct size |]. split.
    { intros ->. discriminate. }
    apply js_match_sound in Hm as (pre & s1 & post & _ & Hmatch).
    unfold re_media in Hmatch. inversion Hmatch as [| | | |? ? ? ? ? ? Hl Hg|];
      subst.
    inversion Hg as [| | | | |? ? ? Hp]; subst.
    inversion Hp; subst. inversion Hl; subst.
    cbn [group nth Nat.sub app] in Hin.
    match goal with
    | Hall : all_chars (accepts CDot) _ = true |- _ =>
        destruct (split_pieces space (accepts CDot) _ size Hall Hin)
          as [Hline Hwords]
    end.
    auto.
  - cbn [fst]. intros [= <-] [].
Qed.

End OrchestratorMore.

(** ** The transcription handler *)

Section Transcribe.
Variable env : Env.
Variable whisper : list Event -> option Buffer -> Exn + string.

(** X24. The transcription handler never throws.  Without an audio file
    it answers 400 and touches nothing.  With one, it writes the audio to
    one temporary file and unlinks it after the transcription, whether that
    succeeded or threw; the file is gone afterwards unless the unlink
    failed, and a failed unlink does not change the answer.  When the write
    itself fails it answers 500 and attempts no unlink. *)
Theorem handleTranscribe_outcome (parsed : Exn + Upload) (w : World) :
  let call := handleTranscribe env whisper parsed in
  let path := audioPathOf env w in
  match parsed with
  | inl e => call w = (Ok (TranscribeFailed 500 (message e)), w)
  | inr NoAudio =>
      call w = (Ok (TranscribeFailed 400 "Audio file is required"), w)
  | inr (AudioFile data) =>
      match write_error env (trace w) path with
      | Some e =>
          call w = (Ok (TranscribeFailed 500 (message e)),
                    mkWorld (trace w ++ [EvWriteFile path false]) (files w))
      | None =>
          fst (call w) =
            Ok match whisper (trace w ++ [EvWriteFile path true]) (Some data) with
               | inl e => TranscribeFailed 500 (message e)
               | inr text => Transcribed text
               end /\
          exists removed,
            events_of call w =
              [EvWriteFile path true; EvUnlink path removed] /\
            (files (snd (call w)) !! path = None \/ removed = false) /\
            forall q, q <> path -> files (snd (call w)) !! q = files w !! q
      end
  end.
Proof.
  intros call path. unfold call, handleTranscribe.
  destruct parsed as [e|[|data]]; [reflexivity | reflexivity |].
  unfold events_of, try_catch, bind, fs_writeFile. fold path.
  destruct (write_error env (trace w) path) as [e|]; [reflexivity |].
  unfold try_finally, try_catch, fs_unlink, ret. cbn [trace files].
  rewrite lookup_insert_eq.
  destruct (whisper _ (Some data)) as [e|text]; cbn [trace files];
    rewrite lookup_insert_eq;
    destruct (unlink_error env _ path) as [e'|]; cbn [fst snd trace files];
    (split; [reflexivity |]);
    [exists false | exists true | exists false | exists true];
    rewrite <- (assoc_L (++)), drop_app_length;
    (split; [reflexivity |]); (split; [auto; left; apply lookup_delete_eq |]);
    intros q Hq; rewrite ?lookup_delete_ne by auto;
    now apply lookup_insert_ne.
Qed.

End Transcribe.

(** ** The further theorems at work on the scenarios *)

Module MoreWitnesses.
Import Scenario.

Lemma discovered_name_shape_witness :
  In canon (parsePrinters lpstat_p_d lpstat_v) /\
  name canon <> EmptyString /\
  inner_space (name canon) = false /\
  all_chars (accepts CDot) (name canon) = true.
Proof.
  assert (H : In canon (parsePrinters lpstat_p_d lpstat_v))
    by (left; vm_compute; reflexivity).
  split; [exact H |].
  exact (discovered_name_shape _ _ _ H).
Defined.

Lemma discovered_status_shape_witness :
  In canon (parsePrinters lpstat_p_d lpstat_v) /\
  status canon <> EmptyString /\
  all_chars (accepts CDot) (status canon) = true /\
  description canon = Some (status canon).
Proof.
  assert (H : In canon (parsePrinters lpstat_p_d lpstat_v))
    by (left; vm_compute; reflexivity).
  split; [exact H |].
  exact (discovered_status_shape _ _ _ H).
Defined.

Lemma default_printer_is_named_by_marker_witness :
  In canon (parsePrinters lpstat_p_d lpstat_v) /\
  isDefault canon = true /\
  exists pre tail,
    lpstat_p_d =
      pre +:+ "system default destination: " +:+ name canon +:+ tail /\
    at_line_end tail.
Proof.
  assert (H : In canon (parsePrinters lpstat_p_d lpstat_v))
    by (left; vm_compute; reflexivity).
  split; [exact H |]. split; [reflexivity |].
  exact (default_printer_is_named_by_marker _ _ _ H eq_refl).
Defined.

Lemma buildPrintCommand_ignores_trivial_options_witness :
  buildPrintCommand "Canon_XK130" temp_path handler_options =
  buildPrintCommand "Canon_XK130" temp_path
    (without_media (without_copies handler_options)).
Proof.
  apply buildPrintCommand_ignores_trivial_options.
  - intros n [= <-]. lia.
  - intros m [=].
Defined.

Lemma printImage_failure_prefix_witness :
  fst (printImage (env_of (cups false) false) "Ghost" (FromBuffer png)
         no_options start) = Throw ghost_not_found /\
  error_with_prefix "Failed to print: " ghost_not_found.
Proof.
  assert (H : fst (printImage (env_of (cups false) false) "Ghost"
                     (FromBuffer png) no_options start)
              = Throw ghost_not_found) by (vm_compute; reflexivity).
  split; [exact H |].
  exact (printImage_failure_prefix _ _ _ _ _ _ H).
Defined.

Lemma printImage_success_commands_witness :
  let env := env_of (cups false) false in
  let cmd :=
    buildPrintCommand "Canon_XK130"
      (submittedPath env start (FromBuffer png)) no_options in
  fst (printImage env "Canon_XK130" (FromBuffer png) no_options start)
    = Ok "42" /\
  commands
    (events_of (printImage env "Canon_XK130" (FromBuffer png) no_options)
       start) = ["lpstat -p -d"; "lpstat -v"; cmd] /\
  exists history,
    succeeds env history cmd = true /\
    "42" = extractJobId (output_of env history cmd).
Proof.
  intros env cmd.
  assert (H : fst (printImage env "Canon_XK130" (FromBuffer png) no_options
                     start) = Ok "42") by (vm_compute; reflexivity).
  split; [exact H |].
  exact (printImage_success_commands env _ _ _ _ _ H).
Defined.

Lemma printImage_unready_input_runs_nothing_witness :
  let env := env_of (cups false) false in
  fst (prepareImage env (tempFilePathOf env start) (FromPath "/missing.png")
         start) = Throw missing_file /\
  fst (printImage env "Canon_XK130" (FromPath "/missing.png") no_options start)
    = Throw (Error ("Failed to print: " +:+ message missing_file)) /\
  commands
    (events_of (printImage env "Canon_XK130" (FromPath "/missing.png")
                  no_options) start) = [].
Proof.
  intros env.
  assert (H : fst (prepareImage env (tempFilePathOf env start)
                     (FromPath "/missing.png") start) = Throw missing_file)
    by (vm_compute; reflexivity).
  split; [exact H |].
  exact (printImage_unready_input_runs_nothing env "Canon_XK130" _ no_options
           _ _ H).
Defined.

Lemma printToUSB_without_usb_printer_witness :
  let env := env_of network_only false in
  fst (getAllPrinters env start) = Ok [office] /\
  (forall p, In p [office] -> isUSB p = false) /\
  printToUSB env (FromBuffer png) handler_options start =
    (Throw (Error "No USB printers found"), snd (getAllPrinters env start)).
Proof.
  intros env.
  assert (H1 : fst (getAllPrinters env start) = Ok [office])
    by (vm_compute; reflexivity).
  assert (H2 : forall p, In p [office] -> isUSB p = false)
    by (intros p [<-|[]]; reflexivity).
  split; [exact H1 |]. split; [exact H2 |].
  exact (printToUSB_without_usb_printer env _ _ _ _ H1 H2).
Defined.

Lemma printToUSB_target_witness :
  let env := env_of (cups false) false in
  fst (printToUSB env (FromBuffer png) handler_options start)
    = Ok ("Canon_XK130", "42") /\
  exists discovered p,
    fst (getAllPrinters env start) = Ok discovered /\
    In p discovered /\ isUSB p = true /\ name p = "Canon_XK130" /\
    forall q, In q discovered -> isUSB q = true -> isDefault q = true ->
              isDefault p = true.
Proof.
  intros env.
  assert (H : fst (printToUSB env (FromBuffer png) handler_options start)
              = Ok ("Canon_XK130", "42")) by (vm_compute; reflexivity).
  split; [exact H |].
  exact (printToUSB_target env _ _ _ _ _ H).
Defined.


Lemma onResume_only_after_enable_witness :
  let env := env_of (cups true) false in
  In (EvOnResume "Canon_XK130")
     (events_of (checkPrinter env watch_one canon) discovered) /\
  "Canon_XK130" = name canon /\
  onResume watch_one = true /\
  succeeds env (trace discovered) (statusCommand (name canon)) = true /\
  statusIsDisabled
    (output_of env (trace discovered) (statusCommand (name canon))) = true /\
  succeeds env (trace (after_status (name canon) discovered))
    (enableCommand (name canon)) = true /\
  succeeds env (trace (after_status (name canon) discovered) ++
                [EvExec (enableCommand (name canon))])
    (acceptCommand (name canon)) = true.
Proof.
  intros env.
  assert (H : In (EvOnResume "Canon_XK130")
                 (events_of (checkPrinter env watch_one canon) discovered)).
  { vm_compute. do 3 right. left. reflexivity. }
  split; [exact H |].
  exact (onResume_only_after_enable env watch_one canon discovered _ H).
Defined.

Lemma handleGenerate_without_image_witness :
  let env := env_of (cups false) false in
  (js_truthy (JString EmptyString) = true ->
   forall buffer,
     fst (generateImage env (js_to_string (JString EmptyString)) start)
     <> Ok (Some buffer)) /\
  snd (handleGenerate env "Canon_XK130" (JString EmptyString) start) = start /\
  exists status error,
    fst (handleGenerate env "Canon_XK130" (JString EmptyString) start) =
      Ok (JsonError status error) /\
    (status = 400%Z /\ js_truthy (JString EmptyString) = false \/
     status = 500%Z /\ js_truthy (JString EmptyString) = true).
Proof.
  intros env.
  assert (H : js_truthy (JString EmptyString) = true ->
              forall buffer,
                fst (generateImage env (js_to_string (JString EmptyString))
                       start) <> Ok (Some buffer))
    by (cbn; discriminate).
  split; [exact H |].
  exact (handleGenerate_without_image env "Canon_XK130" _ start H).
Defined.

Lemma spaced_name_always_falls_back_witness :
  let env := env_of (cups false) false in
  inner_space defaultPrinterName = true /\
  printGenerated env defaultPrinterName png start =
  (getAllPrinters env ;;;
   printToUSB env (FromBuffer png) (mkOptions (Some 1%Z) None false true []) ;;;
   ret tt) start.
Proof.
  intros env.
  assert (H : inner_space defaultPrinterName = true) by reflexivity.
  split; [exact H |].
  exact (spaced_name_always_falls_back env defaultPrinterName png start H).
Defined.

Lemma spaced_name_watches_nothing_witness :
  let env := env_of (cups true) false in
  inner_space (configuredPrinter None) = true /\
  passBody env (serverWatchOptions (configuredPrinter None)) start =
  (getAllPrinters env ;;; ret tt) start.
Proof.
  intros env.
  assert (H : inner_space (configuredPrinter None) = true) by reflexivity.
  split; [exact H |].
  exact (spaced_name_watches_nothing env (configuredPrinter None) start H).
Defined.

Lemma getAvailableMediaSizes_words_witness :
  let env := env_of cups_with_options false in
  fst (getAvailableMediaSizes env "Canon_XK130" start)
    = Ok ["*4x6"; "A4"; "Letter"] /\
  In "A4" ["*4x6"; "A4"; "Letter"] /\
  "A4" <> EmptyString /\ "A4" <> "*" /\
  all_chars (fun c => negb (Ascii.eqb c space)) "A4" = true /\
  all_chars (accepts CDot) "A4" = true.
Proof.
  intros env.
  assert (H1 : fst (getAvailableMediaSizes env "Canon_XK130" start)
               = Ok ["*4x6"; "A4"; "Letter"]) by (vm_compute; reflexivity).
  assert (H2 : In "A4" ["*4x6"; "A4"; "Letter"])
    by (right; left; reflexivity).
  split; [exact H1 |]. split; [exact H2 |].
  exact (getAvailableMediaSizes_words env "Canon_XK130" start _ _ H1 H2).
Defined.

End MoreWitnesses.
